(** * Qgis2threejs: the managers, the DEM grid size and the map-to-scene transform

    A shallow embedding of [datamanager.py], [qgis2threejscore.py] and the
    settings load/save pair of [qgis2threejsdialog.py], with the properties
    the specification states about them.

    Conventions.
    - A Python list is a [list]; a manager's state is threaded explicitly.
    - A call that may raise returns [option] or an explicit outcome.
    - Python [float] arithmetic is binary64 for [calculateDEMSize]: every
      operation is the exact result rounded to the nearest double (with
      a transcription onto the primitive floats beside it, to compare at
      given inputs). For [MapTo3D] it is idealised as real arithmetic.
    - A module the code imports and the sources do not include is taken
      as a parameter ([Host]) or modelled from the specification
      ([RotatedRect]); each such definition says so. *)

From Stdlib Require Import ZArith QArith Qcanon Lia String Ascii Reals Lra.
From Stdlib Require Import Floats Uint63.
From stdpp Require Import base decidable option list numbers strings pretty gmap.

(** ** datamanager.py: DataManager *)

Module DataManager.
Section manager.
(** The descriptors are value-equal tuples: equality is decidable. *)
Context {A : Type} `{EqDecision A}.

(** [self._list], created empty by [__init__]. *)
Definition init : list A := [].

(** [count]: [len(self._list)]. *)
Definition count (l : list A) : nat := length l.

(** [list.index(data)]: the first position holding a value equal to
    [data]; [None] stands for Python's ValueError. *)
Definition list_index (l : list A) (data : A) : option nat :=
  fst <$> list_find (λ y, y = data) l.

(** [_index]: the index returned and the list after the call. *)
Definition _index (data : A) (l : list A) : option (nat * list A) :=
  if decide (data ∈ l) then
    i ← list_index l data; Some (i, l)
  else
    Some (length l, l ++ [data]).

(** A run of [_index] calls, left to right, keeping the last list. *)
Fixpoint index_all (ds : list A) (l : list A) : option (list A) :=
  match ds with
  | [] => Some l
  | d :: ds' => '(_, l') ← _index d l; index_all ds' l'
  end.
End manager.
End DataManager.

(** ** datamanager.py: ImageManager, the descriptors and their indices *)

Module ImageManager.
Import DataManager.
Section images.
(** The extent objects carried by map and layer images. *)
Context {Extent : Type} `{EqDecision Extent}.

(** The tuples [(IMAGE_FILE, path)], [(CANVAS_IMAGE, transp_background)],
    [(MAP_IMAGE, (width, height, extent, transp_background))] and
    [(LAYER_IMAGE, (layerids, width, height, extent, transp_background))]. *)
Inductive image : Type :=
| IMAGE_FILE (path : string)
| CANVAS_IMAGE (transp_background : bool)
| MAP_IMAGE (width height : Z) (extent : Extent) (transp_background : bool)
| LAYER_IMAGE (layerids : list string) (width height : Z) (extent : Extent)
    (transp_background : bool).

#[global] Instance image_eq_dec : EqDecision image.
Proof. solve_decision. Defined.

Definition imageIndex (path : string) (l : list image) :=
  _index (IMAGE_FILE path) l.

Definition canvasImageIndex (transp_background : bool) (l : list image) :=
  _index (CANVAS_IMAGE transp_background) l.

Definition mapImageIndex (width height : Z) (extent : Extent)
    (transp_background : bool) (l : list image) :=
  _index (MAP_IMAGE width height extent transp_background) l.

Definition layerImageIndex (layerids : list string) (width height : Z)
    (extent : Extent) (transp_background : bool) (l : list image) :=
  _index (LAYER_IMAGE layerids width height extent transp_background) l.
End images.
Arguments image : clear implicits.

(** *** [renderedImage] and the shared map settings *)

(** [QgsMapSettings], as far as [renderedImage] reads and writes it. The
    object is shared with the rest of the export, so calls thread it. *)
Record QgsMapSettings {Rect Angle Color Layer : Type} : Type := MapSettings {
  outputSize : Z * Z;
  extent : Rect;
  rotation : Angle;
  layers : list Layer;
  backgroundColor : Color
}.
Arguments QgsMapSettings : clear implicits.
Arguments MapSettings {Rect Angle Color Layer}.

(** What the host application and the modules outside this file provide:
    the layers' ids and kinds, [tools.getLayersByLayerIds], the rotated
    extent's [unrotatedRect()] and [rotation()], [QColor(Qt.transparent)],
    and the painter job, which draws an image of the given size from the
    settings ([sync] tells [renderSynchronously] from [start] followed by
    [waitForFinished]). *)
Class Host (Extent Rect Angle Color Layer Image : Type) : Type := {
  layer_id : Layer → string;
  is_plugin_layer : Layer → bool;
  getLayersByLayerIds : list string → list Layer;
  unrotatedRect : Extent → Rect;
  extent_rotation : Extent → Angle;
  transparent : Color;
  run_job : bool → QgsMapSettings Rect Angle Color Layer → Z * Z → Image
}.

Section rendering.
Context {Extent Rect Angle Color Layer Image : Type}.
Context `{!Host Extent Rect Angle Color Layer Image}.

Abbreviation settings_t := (QgsMapSettings Rect Angle Color Layer).

(** Code that reads and updates the settings object. *)
Definition st (A : Type) : Type := settings_t → A * settings_t.

#[global] Instance st_ret : MRet st := λ A a s, (a, s).

#[global] Instance st_bind : MBind st := λ A B k c s,
  let '(a, s') := c s in k a s'.

Definition get {A} (field : settings_t → A) : st A := λ s, (field s, s).

Definition layerIds : st (list string) := λ s, (layer_id <$> layers s, s).

Definition setOutputSize (v : Z * Z) : st unit := λ s,
  ((), MapSettings v (extent s) (rotation s) (layers s) (backgroundColor s)).

Definition setExtent (v : Rect) : st unit := λ s,
  ((), MapSettings (outputSize s) v (rotation s) (layers s) (backgroundColor s)).

Definition setRotation (v : Angle) : st unit := λ s,
  ((), MapSettings (outputSize s) (extent s) v (layers s) (backgroundColor s)).

Definition setLayers (v : list Layer) : st unit := λ s,
  ((), MapSettings (outputSize s) (extent s) (rotation s) v (backgroundColor s)).

Definition setBackgroundColor (v : Color) : st unit := λ s,
  ((), MapSettings (outputSize s) (extent s) (rotation s) (layers s) v).

(** [if c: body], for a body that returns nothing. *)
Definition when (c : bool) (body : st unit) : st unit :=
  if c then body else mret ().

(** Python's truth value of the [layerids] argument: [None] and the empty
    list are false. *)
Definition truthy (layerids : option (list string)) : bool :=
  match layerids with Some (_ :: _) => true | _ => false end.

Definition renderedImage (width height : Z) (ext : Extent)
    (transp_background : bool) (layerids : option (list string)) : st Image :=
  (* store old map settings *)
  old_outputSize ← get outputSize;
  old_extent ← get extent;
  old_rotation ← get rotation;
  old_layerids ← layerIds;
  old_backgroundColor ← get backgroundColor;
  (* map settings *)
  setOutputSize (width, height);;
  setExtent (unrotatedRect ext);;
  setRotation (extent_rotation ext);;
  when (truthy layerids)
    (setLayers (getLayersByLayerIds (default [] layerids)));;
  when transp_background (setBackgroundColor transparent);;
  ls ← get layers;
  let has_pluginlayer := existsb is_plugin_layer ls in
  (* rendering *)
  image ← (λ s, (run_job has_pluginlayer s (width, height), s));
  (* restore map settings *)
  setOutputSize old_outputSize;;
  setExtent old_extent;;
  setRotation old_rotation;;
  setLayers (getLayersByLayerIds old_layerids);;
  setBackgroundColor old_backgroundColor;;
  mret image.
End rendering.
End ImageManager.

(** ** A small host, for running [renderedImage] *)

Module DemoHost.
Import ImageManager.

(** A layer: its id and whether it is a plugin layer. *)
Definition layer : Type := string * bool.

(** The layers the project registers. *)
Definition project : list layer := [("dem", false); ("tiles", true); ("roads", false)].

(** A lookup of each id among the project's layers, dropping the ids the
    project does not know. *)
Definition lookup_layers (ids : list string) : list layer :=
  omap (λ id, snd <$> list_find (λ l : layer, l.1 = id) project) ids.

(** Rectangles are four integers, angles and colours integers, and the
    image records what the job was given. *)
#[global] Instance host :
  Host (list Z * Z) (list Z) Z Z layer
       (bool * QgsMapSettings (list Z) Z Z layer * (Z * Z)) := {|
  layer_id := fst;
  is_plugin_layer := snd;
  getLayersByLayerIds := lookup_layers;
  unrotatedRect := fst;
  extent_rotation := snd;
  transparent := 0%Z;
  run_job := λ sync s size, (sync, s, size)
|}.

Definition canvas_settings : QgsMapSettings (list Z) Z Z layer :=
  MapSettings (800, 600)%Z [0; 0; 400; 300]%Z 0%Z
    [("dem", false); ("roads", false)] 16777215%Z.

(** Settings that show a layer the project does not register. *)
Definition preview_settings : QgsMapSettings (list Z) Z Z layer :=
  MapSettings (800, 600)%Z [0; 0; 400; 300]%Z 0%Z
    [("dem", false); ("preview", false)] 16777215%Z.
End DemoHost.

(** ** datamanager.py: MaterialManager, the descriptors and their indices *)

Module MaterialManager.
Import DataManager.

Definition MESH_LAMBERT : Z := 0.
Definition MESH_PHONG : Z := 1.
Definition LINE_BASIC : Z := 2.
Definition SPRITE : Z := 3.
Definition WIREFRAME : Z := 10.
Definition MESH_LAMBERT_SMOOTH : Z := 0.
Definition MESH_LAMBERT_FLAT : Z := 11.
Definition CANVAS_IMAGE : Z := 20.
Definition MAP_IMAGE : Z := 21.
Definition LAYER_IMAGE : Z := 22.
Definition IMAGE_FILE : Z := 23.

Definition ERROR_COLOR : string := "0".

Section materials.
Context {Extent : Type} `{EqDecision Extent}.

(** The second component of a material tuple: a colour string, the
    canvas image's transparency flag, or the parameters of an image. *)
Inductive payload : Type :=
| Color (color : string)
| Canvas (transp_background : bool)
| MapImage (width height : Z) (extent : Extent) (transp_background : bool)
| LayerImage (layerids : list string) (width height : Z) (extent : Extent)
    (transp_background : bool)
| ImageFile (path : string) (transp_background : bool).

#[global] Instance payload_eq_dec : EqDecision payload.
Proof. solve_decision. Defined.

(** The tuple [(type, payload, opacity, doubleSide)]. *)
Record material : Type := Material {
  mat_type : Z;
  mat_data : payload;
  mat_opacity : Qc;
  mat_doubleSide : bool
}.

#[global] Instance material_eq_dec : EqDecision material.
Proof. solve_decision. Defined.

(** [color[0:2]]: the first two characters (fewer when the string is
    shorter). *)
Definition prefix2 (color : string) : string := substring 0 2 color.

Definition _indexCol (type : Z) (color : string) (opacity : Qc)
    (doubleSide : bool) (l : list material) : option (nat * list material) :=
  let color := if decide (prefix2 color ≠ "0x") then ERROR_COLOR else color in
  let mat := Material type (Color color) opacity doubleSide in
  _index mat l.












End materials.
Arguments payload : clear implicits.
Arguments material : clear implicits.
End MaterialManager.

(** ** datamanager.py: ModelManager and its [write] *)

Module ModelManager.
Import DataManager.

(** The tuple [(model_type, path)]. *)
Definition model : Type := string * string.

(** The manager: [self._list] and [self._collada]. *)
Record t : Type := Manager { _list : list model; _collada : bool }.

Definition init : t := Manager [] false.

Definition modelIndex (path model_type : string) (m : t) : option (nat * t) :=
  let collada := if decide (model_type = "COLLADA") then true else _collada m in
  '(i, l) ← _index (model_type, path) (_list m);
  Some (i, Manager l collada).

Definition scripts (m : t) : list string :=
  if _collada m then ["threejs/loaders/ColladaLoader.js"] else [].

(** What a path names on disk. A regular file holds its text, or [None]
    when opening or reading it raises (no permission, bytes that do not
    decode); anything else that exists is not a regular file. *)
Inductive node : Type :=
| RegularFile (content : option string)
| OtherNode.

(** The file system [os.path] looks at: a path that is not bound does not
    exist. *)
Abbreviation filesystem := (gmap string node).

Definition exists_ (fs : filesystem) (path : string) : bool :=
  bool_decide (is_Some (fs !! path)).

Definition isfile (fs : filesystem) (path : string) : bool :=
  match fs !! path with Some (RegularFile _) => true | _ => false end.

(** The output file [f] and the plugin's message log, both append-only. *)
Record world : Type := World { written : list string; logged : list string }.

(** A step of [write]: the world after it and either the exception raised
    or the value returned. *)
Inductive exn : Type := ReadError (path : string).

Definition io (A : Type) : Type := world → world * (exn + A).

#[global] Instance io_ret : MRet io := λ A a w, (w, inr a).

#[global] Instance io_bind : MBind io := λ A B k c w,
  match c w with
  | (w', inr a) => k a w'
  | (w', inl e) => (w', inl e)
  end.

Definition raise {A} (e : exn) : io A := λ w, (w, inl e).

(** [f.write(s)]. *)
Definition f_write (s : string) : io unit :=
  λ w, (World (written w ++ [s]) (logged w), inr ()).

(** [logMessage(s)]. *)
Definition logMessage (s : string) : io unit :=
  λ w, (World (written w) (logged w ++ [s]), inr ()).

(** [open(path).read()] on a regular file. *)
Definition read_file (fs : filesystem) (path : string) : io string :=
  match fs !! path with
  | Some (RegularFile (Some data)) => mret data
  | _ => raise (ReadError path)
  end.

(** [s.replace(old, new)] for a one-character [old]. *)
Fixpoint replace (old : ascii) (new : string) (s : string) : string :=
  match s with
  | EmptyString => EmptyString
  | String c s' =>
      if decide (c = old) then new +:+ replace old new s'
      else String c (replace old new s')
  end.

Definition backslash : string := String (ascii_of_nat 92) EmptyString.
Definition tab : ascii := ascii_of_nat 9.
Definition cr : ascii := ascii_of_nat 13.
Definition lf : ascii := ascii_of_nat 10.
Definition newline : string := String lf EmptyString.

(** The chain of replacements applied to a model file's text. *)
Definition escape (data : string) : string :=
  replace lf (backslash +:+ "n")
    (replace cr (backslash +:+ "r")
      (replace tab (backslash +:+ "t")
        (replace "'" (backslash +:+ "'")
          (replace (ascii_of_nat 92) (backslash +:+ backslash) data)))).

(** ["project.models[%d] = {type:'%s',data:'%s'};\n"] *)
Definition model_line (index : nat) (model_type data : string) : string :=
  "project.models[" +:+ pretty index +:+ "] = {type:'" +:+ model_type
    +:+ "',data:'" +:+ data +:+ "'};" +:+ newline.

(** ["project.models[%d] = {type:'%s',data:null};\n"] *)
Definition null_line (index : nat) (model_type : string) : string :=
  "project.models[" +:+ pretty index +:+ "] = {type:'" +:+ model_type
    +:+ "',data:null};" +:+ newline.

(** ["{0}: {1} ({2})".format(err_msg, path, model_type)] *)
Definition log_line (err_msg path model_type : string) : string :=
  err_msg +:+ ": " +:+ path +:+ " (" +:+ model_type +:+ ")".

(** The message logged for a path that names no regular file. *)
Definition not_file_message (fs : filesystem) (path model_type : string) : string :=
  let err_msg := if exists_ fs path then "Not 3D model file path"
                 else "3D model file not found" in
  log_line err_msg path model_type.

(** The body of the loop, for one [(index, model)] of [enumerate]. *)
Definition write_model (fs : filesystem) (index : nat) (m : model) : io unit :=
  let '(model_type, path) := m in
  let path_exists := exists_ fs path in
  if path_exists && isfile fs path then
    data ← read_file fs path;
    f_write (model_line index model_type (escape data))
  else
    f_write (null_line index model_type);;
    logMessage (not_file_message fs path model_type).

(** [for index, model in enumerate(...)], from position [index] on. *)
Fixpoint write_loop (fs : filesystem) (index : nat) (models : list model) : io unit :=
  match models with
  | [] => mret ()
  | m :: rest => write_model fs index m;; write_loop fs (S index) rest
  end.

Definition header : string := newline +:+ "// 3D model data" +:+ newline.

Definition write (fs : filesystem) (m : t) : io unit :=
  if decide (length (_list m) = 0) then mret ()
  else f_write header;; write_loop fs 0 (_list m).
End ModelManager.

(** ** Python values shared by the models of qgis2threejscore.py *)

(** The exceptions the modelled code can raise. *)
Inductive exception : Type := ZeroDivisionError | TypeError | OverflowError.

(** A call returns a value or raises. *)
Inductive outcome (A : Type) : Type :=
| Returned (a : A)
| Raised (e : exception).
Arguments Returned {A} a.
Arguments Raised {A} e.

(** Statements in sequence: the first exception raised ends the call. *)
#[global] Instance outcome_ret : MRet outcome := λ A a, Returned a.

#[global] Instance outcome_bind : MBind outcome := λ A B k c,
  match c with
  | Returned a => k a
  | Raised e => Raised e
  end.

(** [l * n] on a list: [n] copies of [l], none when [n] is not positive. *)
Definition list_mul {A} (l : list A) (n : Z) : list A :=
  concat (replicate (Z.to_nat n) l).

(** ** Python's floats *)

(** The doubles of IEEE 754 binary64 and the operations on them that
    [calculateDEMSize] uses. Each operation gives the exact result
    rounded to the nearest double, the one with the even mantissa of two
    equally near; numbers are kept as integers, so the functions run. *)
Module Binary64.
Local Open Scope Z_scope.

(** A finite double, [mantissa * 2 ^ exponent]. A number has more than
    one such pair; zero has any exponent, and no sign. *)
Record double : Type := Double { mantissa : Z; exponent : Z }.

(** The rational [p / q] divided by [2 ^ k], as a numerator and a
    denominator. *)
Definition scale (p q k : Z) : Z * Z :=
  if 0 <=? k then (p, q * 2 ^ k) else (p * 2 ^ (- k), q).

(** [2 ^ k <= p / q], for a positive [q]. *)
Definition pow2_le (k p q : Z) : bool :=
  let '(p', q') := scale p q k in q' <=? p'.

(** The integer part of the binary logarithm of [p / q], for positive
    [p] and [q]: the difference of the two bit lengths, or one less. *)
Definition ilog2 (p q : Z) : Z :=
  let d := Z.log2 p - Z.log2 q in
  if pow2_le d p q then d else d - 1.

(** The integer nearest to [p / q], the even one of two equally near,
    for a positive [q]. *)
Definition rne (p q : Z) : Z :=
  let f := p / q in
  let r := p mod q in
  if 2 * r <? q then f
  else if q <? 2 * r then f + 1
  else if Z.even f then f else f + 1.

(** The exponent of the doubles next to [p / q]: the mantissa has 53
    bits, and the exponent does not go below that of the subnormal
    numbers. *)
Definition quantum (p q : Z) : Z := Z.max (ilog2 (Z.abs p) q - 52) (-1074).

(** [p / q] rounded to the nearest multiple of [2 ^ quantum]. *)
Definition round (p q : Z) : double :=
  let c := quantum p q in
  let '(p', q') := scale p q c in
  Double (rne p' q') c.


(** Whether a rounded number is a double, below [2 ^ 1024] in absolute
    value. *)
Definition finite (x : double) : bool :=
  Z.abs (mantissa x) * 2 ^ (exponent x + 1074) <? 2 ^ 2098.

(** A result that is no double is an infinity: [None]. *)
Definition checked (x : double) : option double :=
  if finite x then Some x else None.

(** A double as a numerator and a denominator. *)
Definition ratio (x : double) : Z * Z := scale (mantissa x) 1 (- exponent x).

Definition round_dyadic (m e : Z) : double :=
  let '(p, q) := scale m 1 (- e) in round p q.

(** [x * y] *)
Definition mul (x y : double) : option double :=
  checked (round_dyadic (mantissa x * mantissa y) (exponent x + exponent y)).

(** [x + y] *)
Definition add (x y : double) : option double :=
  let e := Z.min (exponent x) (exponent y) in
  checked (round_dyadic (mantissa x * 2 ^ (exponent x - e)
                         + mantissa y * 2 ^ (exponent y - e)) e).

(** The square root of a double that is not negative, correctly rounded.
    The mantissa is shifted by [k] bits, of the parity of the exponent,
    to a [t] of 105 or 106 bits; the root of [t] has 53 bits, and it is
    rounded up when [t] is above the square of the root's integer part
    plus one half, [r * r + r + 1 / 4]. *)
Definition sqrt (x : double) : double :=
  let m := mantissa x in
  let e := exponent x in
  let l := Z.log2 m in
  let k := if Z.even (104 - l - e) then 104 - l else 105 - l in
  let t := m * 2 ^ k in
  let r := Z.sqrt t in
  Double (if t <=? r * r + r then r else r + 1) ((e - k) / 2).

(** [x < n], for an integer [n]. *)
Definition ltb_int (x : double) (n : Z) : bool :=
  let '(p, q) := ratio x in p <? n * q.

(** The integer part of a double, toward zero. *)
Definition trunc (x : double) : Z :=
  let '(p, q) := ratio x in p ÷ q.
End Binary64.

(** ** qgis2threejscore.py: calculateDEMSize *)

Module DEMSize.
Import Binary64.
Local Open Scope Z_scope.

(** The conversion of an integer operand to a float, as in
    [width * s]: correctly rounded, and an OverflowError for an integer
    beyond the doubles. *)
Definition float_of_int (n : Z) : outcome double :=
  let x := round n 1 in
  if finite x then Returned x else Raised OverflowError.

(** [a / b] on integers: the quotient correctly rounded, a
    ZeroDivisionError for a zero divisor, an OverflowError for a
    quotient beyond the doubles. *)
Definition truediv (a b : Z) : outcome double :=
  if decide (b = 0) then Raised ZeroDivisionError
  else
    let x := round (a * Z.sgn b) (Z.abs b) in
    if finite x then Returned x else Raised OverflowError.

(** [int(x)]: truncation toward zero, an OverflowError for an
    infinity. *)
Definition int (x : option double) : outcome Z :=
  match x with
  | Some x => Returned (trunc x)
  | None => Raised OverflowError
  end.

(** [x ** 0.5]: a complex number, here [None], for a negative [x];
    otherwise C's [pow(x, 0.5)], taken to be the correctly rounded
    square root (a C library may give a neighbouring double). The
    bounds proved below use of the result only that it is not negative,
    and not below one for an [x] that is not. *)
Definition pow_half (x : double) : option double :=
  if mantissa x <? 0 then None else Some (sqrt x).

(** [int(d * s)] *)
Definition scaled (d : Z) (s : double) : outcome Z :=
  x ← float_of_int d; int (mul x s).

(** The two lines
    [if d % roughening != 0: d = int(d / roughening + 0.9) * roughening],
    for a [roughening] other than zero; [0.9] is the double nearest to
    nine tenths. *)
Definition roughen (d roughening : Z) : outcome Z :=
  if decide (d mod roughening ≠ 0) then
    q ← truediv d roughening;
    n ← int (add q (round 9 10));
    Returned (n * roughening)
  else Returned d.

(** [calculateDEMSize(canvasSize, sizeLevel, roughening)], on integer
    arguments; a [QSize] is the pair of its width and height, which it
    holds as C ints. The comparison [s < 1] raises a TypeError for a
    complex [s]. *)
Definition calculateDEMSize (canvasSize : Z * Z) (sizeLevel roughening : Z)
    : outcome (Z * Z) :=
  let '(width, height) := canvasSize in
  let size := 100 * sizeLevel in
  q ← truediv (size * size) (width * height);
  match pow_half q with
  | None => Raised TypeError
  | Some s =>
      '(width, height) ←
        (if ltb_int s 1
         then width ← scaled width s; height ← scaled height s;
              Returned (width, height)
         else Returned (width, height));
      '(width, height) ←
        (if decide (roughening ≠ 0)
         then width ← roughen width roughening;
              height ← roughen height roughening;
              Returned (width, height)
         else Returned (width, height));
      Returned (width + 1, height + 1)
  end.
End DEMSize.

(** *** The same function on the machine's doubles *)

(** A transcription of [calculateDEMSize] onto the primitive binary64
    floats, for a canvas, a squared size and a roughening that are not
    negative and below [2 ^ 53], to compare the model above with at
    given inputs. [x ** 0.5] is the primitive square root, and the literal in
    [roughen] is the double nearest to 0.9. *)
Module DEMSizeBinary64.
Local Open Scope Z_scope.

(** [float(n)] for a small natural number. *)
Definition of_int (n : Z) : float := PrimFloat.of_uint63 (Uint63.of_Z n).

(** [int(x)] on a double: truncation toward zero. *)
Definition int (x : float) : Z :=
  match Prim2SF x with
  | S754_finite negative m e =>
      let v := if 0 <=? e then Z.pos m * 2 ^ e else Z.pos m / 2 ^ (- e) in
      if negative then - v else v
  | _ => 0
  end.

Definition roughen (d roughening : Z) : Z :=
  if decide (d mod roughening ≠ 0) then
    int (PrimFloat.add (PrimFloat.div (of_int d) (of_int roughening))
           0x1.ccccccccccccdp-1%float)
    * roughening
  else d.

Definition calculateDEMSize (canvasSize : Z * Z) (sizeLevel roughening : Z)
    : Z * Z :=
  let '(width, height) := canvasSize in
  let size := 100 * sizeLevel in
  let s := PrimFloat.sqrt
             (PrimFloat.div (of_int (size * size)) (of_int (width * height))) in
  let '(width, height) :=
    if PrimFloat.ltb s 1%float
    then (int (PrimFloat.mul (of_int width) s),
          int (PrimFloat.mul (of_int height) s))
    else (width, height) in
  let '(width, height) :=
    if decide (roughening ≠ 0)
    then (roughen width roughening, roughen height roughening)
    else (width, height) in
  (width + 1, height + 1).

(** A double of the model above in the form [Prim2SF] gives a primitive
    float, for a mantissa in its normal form. *)
Definition spec (x : Binary64.double) : spec_float :=
  match Binary64.mantissa x with
  | 0 => S754_zero false
  | Z.pos m => S754_finite false m (Binary64.exponent x)
  | Z.neg m => S754_finite true m (Binary64.exponent x)
  end.
End DEMSizeBinary64.

(** ** qgis2threejscore.py: FlatDEMProvider *)

Module FlatDEMProvider.
Section flat.
Context {V Extent : Type}.

(** The provider: [self.value]. *)
Record t : Type := Provider { value : V }.

Definition name (p : t) : string := "Flat Plane".

(** [[self.value] * width * height] *)
Definition read (p : t) (width height : Z) (extent : Extent) : list V :=
  list_mul (list_mul [value p] width) height.

Definition readValue {X} (p : t) (x y : X) : V := value p.
End flat.
Arguments t : clear implicits.
End FlatDEMProvider.

(** ** rotatedrect.py and geometry.py, as far as [MapTo3D] uses them *)

Module RotatedRect.
Local Open Scope R_scope.

(** Modelled from the spec: rotatedrect.py is not among the sources. The
    extent is a rectangle of the given width and height around a centre,
    turned about that centre by [rotation] degrees. *)
Record t : Type := Rect {
  center_x : R;
  center_y : R;
  width : R;
  height : R;
  rotation : R
}.

(** Modelled from the spec: the point [(x, y)] turned by [degrees] about
    [(cx, cy)]. *)
Definition rotatePoint (degrees cx cy x y : R) : R * R :=
  let theta := degrees * PI / 180 in
  (cx + (x - cx) * cos theta - (y - cy) * sin theta,
   cy + (x - cx) * sin theta + (y - cy) * cos theta).

(** Modelled from the spec: the lower-left corner of the unrotated
    extent. *)
Definition xMinimum (r : t) : R := center_x r - width r / 2.
Definition yMinimum (r : t) : R := center_y r - height r / 2.

(** Modelled from the spec: [normalizePoint] "normalizes (x, y) into the
    unrotated extent's unit square": the point is turned back by the
    extent's rotation and measured from the lower-left corner in units of
    the extent's width and height. A zero width or height makes the
    division raise. *)
Definition normalizePoint (r : t) (x y : R) : outcome (R * R) :=
  let '(px, py) := rotatePoint (- rotation r) (center_x r) (center_y r) x y in
  if Req_dec_T (width r) 0 then Raised ZeroDivisionError
  else if Req_dec_T (height r) 0 then Raised ZeroDivisionError
  else Returned ((px - xMinimum r) / width r, (py - yMinimum r) / height r).

(** The four corners of an extent, named by the side they lie on before
    the rotation. *)
Inductive corner : Type := LowerLeft | LowerRight | UpperLeft | UpperRight.

(** [-1] for the left or lower side, [1] for the right or upper one. *)
Definition side_x (c : corner) : R :=
  match c with LowerLeft | UpperLeft => -1 | _ => 1 end.
Definition side_y (c : corner) : R :=
  match c with LowerLeft | LowerRight => -1 | _ => 1 end.

(** Modelled from the spec: a corner of the (rotated) source extent. *)
Definition vertex (r : t) (c : corner) : R * R :=
  rotatePoint (rotation r) (center_x r) (center_y r)
    (center_x r + side_x c * width r / 2)
    (center_y r + side_y c * height r / 2).
End RotatedRect.

(** ** qgis2threejscore.py: MapTo3D *)

Module MapTo3D.
Local Open Scope R_scope.

(** What [__init__] reads of the map settings: [rotation()], the extent
    [RotatedRect.fromMapSettings] builds, and [outputSize()]. *)
Record mapSettings : Type := Settings {
  ms_rotation : R;
  ms_mapExtent : RotatedRect.t;
  ms_outputSize : Z * Z
}.

(** [geometry.Point]. *)
Record Point : Type := Pt { pt_x : R; pt_y : R; pt_z : R }.

Record t : Type := MapTo3D {
  rotation : R;
  mapExtent : RotatedRect.t;
  planeWidth : R;
  planeHeight : R;
  verticalExaggeration : R;
  verticalShift : R;
  multiplier : R;
  multiplierZ : R
}.

(** [x / y], which raises when [y] is zero. *)
Definition div (x y : R) : outcome R :=
  if Req_dec_T y 0 then Raised ZeroDivisionError else Returned (x / y).

(** [__init__]: the two divisions are the only steps that can raise. *)
Definition init (ms : mapSettings) (planeWidth verticalExaggeration verticalShift : R)
    : outcome t :=
  let canvas_size := ms_outputSize ms in
  match div (planeWidth * IZR (snd canvas_size)) (IZR (fst canvas_size)) with
  | Raised e => Raised e
  | Returned planeHeight =>
      match div planeWidth (RotatedRect.width (ms_mapExtent ms)) with
      | Raised e => Raised e
      | Returned multiplier =>
          Returned (MapTo3D (ms_rotation ms) (ms_mapExtent ms) planeWidth
                      planeHeight verticalExaggeration verticalShift
                      multiplier (multiplier * verticalExaggeration))
      end
  end.

(** The third coordinate [transform] returns. *)
Definition transform_z (m : t) (z : R) : R := (z + verticalShift m) * multiplierZ m.

Definition transform (m : t) (x y z : R) : outcome Point :=
  match RotatedRect.normalizePoint (mapExtent m) x y with
  | Raised e => Raised e
  | Returned (nx, ny) =>
      Returned (Pt ((nx - 0.5) * planeWidth m)
                   ((ny - 0.5) * planeHeight m)
                   (transform_z m z))
  end.

Definition transformPoint (m : t) (pt : Point) : outcome Point :=
  transform m (pt_x pt) (pt_y pt) (pt_z pt).
End MapTo3D.

(** ** qgis2threejsdialog.py: saving and loading the settings *)

Module Dialog.
Local Open Scope Z_scope.

(** A Python [str] is a sequence of code points, a file a sequence of
    bytes. *)
Abbreviation text := (list Z).
Abbreviation bytes := (list Z).

(** The code points of an ASCII literal. *)
Definition lit (s : string) : text :=
  (λ c, Z.of_nat (nat_of_ascii c)) <$> list_ascii_of_string s.

(** *** Text files: the codecs of [open] *)

(** The encodings a text file can be opened with: the one named in the
    call, or the platform's preferred one when the call names none. *)
Inductive encoding : Type := UTF_8 | Latin_1 | CP1252.

(** UTF-8 of one code point; surrogates and values past U+10FFFF cannot
    be encoded. *)
Definition encode_utf8_char (c : Z) : option bytes :=
  if decide (c < 0) then None
  else if decide (c < 128) then Some [c]
  else if decide (c < 2048) then Some [192 + c / 64; 128 + c mod 64]
  else if decide (55296 ≤ c < 57344) then None
  else if decide (c < 65536) then
    Some [224 + c / 4096; 128 + (c / 64) mod 64; 128 + c mod 64]
  else if decide (c < 1114112) then
    Some [240 + c / 262144; 128 + (c / 4096) mod 64;
          128 + (c / 64) mod 64; 128 + c mod 64]
  else None.

Fixpoint encode_utf8 (t : text) : option bytes :=
  match t with
  | [] => Some []
  | c :: t' =>
      b ← encode_utf8_char c; bs ← encode_utf8 t'; Some (b ++ bs)
  end.

(** A continuation byte's six bits. *)
Definition continuation (b : Z) : option Z :=
  if decide (128 ≤ b < 192) then Some (b - 128) else None.

(** Strict UTF-8 decoding: overlong forms, surrogates, stray bytes and a
    sequence cut short are errors. *)
Fixpoint decode_utf8 (bs : bytes) : option text :=
  match bs with
  | [] => Some []
  | b0 :: r0 =>
      if decide (0 ≤ b0 < 128) then (b0 ::.) <$> decode_utf8 r0
      else if decide (194 ≤ b0 < 224) then
        match r0 with
        | b1 :: r1 =>
            x1 ← continuation b1;
            ((b0 - 192) * 64 + x1 ::.) <$> decode_utf8 r1
        | _ => None
        end
      else if decide (224 ≤ b0 < 240) then
        match r0 with
        | b1 :: b2 :: r2 =>
            x1 ← continuation b1; x2 ← continuation b2;
            let c := (b0 - 224) * 4096 + x1 * 64 + x2 in
            if decide (2048 ≤ c ∧ ¬ (55296 ≤ c < 57344))
            then (c ::.) <$> decode_utf8 r2 else None
        | _ => None
        end
      else if decide (240 ≤ b0 < 245) then
        match r0 with
        | b1 :: b2 :: b3 :: r3 =>
            x1 ← continuation b1; x2 ← continuation b2; x3 ← continuation b3;
            let c := (b0 - 240) * 262144 + x1 * 4096 + x2 * 64 + x3 in
            if decide (65536 ≤ c < 1114112)
            then (c ::.) <$> decode_utf8 r3 else None
        | _ => None
        end
      else None
  end.

(** Windows-1252 of the bytes 0x80 to 0x9F; five of them are unassigned. *)
Definition cp1252_high (b : Z) : option Z :=
  match b with
  | 128 => Some 8364 | 130 => Some 8218 | 131 => Some 402 | 132 => Some 8222
  | 133 => Some 8230 | 134 => Some 8224 | 135 => Some 8225 | 136 => Some 710
  | 137 => Some 8240 | 138 => Some 352 | 139 => Some 8249 | 140 => Some 338
  | 142 => Some 381 | 145 => Some 8216 | 146 => Some 8217 | 147 => Some 8220
  | 148 => Some 8221 | 149 => Some 8226 | 150 => Some 8211 | 151 => Some 8212
  | 152 => Some 732 | 153 => Some 8482 | 154 => Some 353 | 155 => Some 8250
  | 156 => Some 339 | 158 => Some 382 | 159 => Some 376
  | _ => None
  end.

Definition decode_char (e : encoding) (b : Z) : option Z :=
  match e with
  | CP1252 => if decide (128 ≤ b < 160) then cp1252_high b else Some b
  | _ => Some b
  end.

(** [bytes.decode(e)]; [None] stands for UnicodeDecodeError. *)
Definition decode (e : encoding) (bs : bytes) : option text :=
  match e with
  | UTF_8 => decode_utf8 bs
  | _ => mapM (decode_char e) bs
  end.
(** *** The settings as a JSON value *)

(** The values the settings mapping is built from: [None], booleans,
    integers, strings, lists, and dicts with string keys in insertion
    order. *)
#[warnings="-register-all"]
Inductive json : Type :=
| JNull
| JBool (b : bool)
| JInt (n : Z)
| JStr (s : text)
| JList (items : list json)
| JDict (members : list (text * json)).

(** [d.get(key)] on a dict. *)
Definition get (key : text) (v : json) : option json :=
  match v with
  | JDict members =>
      (λ found : nat * (text * json), found.2.2)
        <$> list_find (λ kv, kv.1 = key) members
  | _ => None
  end.

(** *** [json.dump(obj, f, ensure_ascii=False, indent=2, sort_keys=True)] *)

(** Python's order on strings: by code point, a prefix first. *)
Fixpoint text_ltb (a b : text) : bool :=
  match a, b with
  | [], [] => false
  | [], _ :: _ => true
  | _ :: _, [] => false
  | x :: a', y :: b' => (x <? y) || ((x =? y) && text_ltb a' b')
  end.

(** Insertion into a list sorted by key, after the keys not above it. *)
Fixpoint insert_by_key {A} (kv : text * A) (l : list (text * A)) : list (text * A) :=
  match l with
  | [] => [kv]
  | kv' :: l' =>
      if text_ltb kv.1 kv'.1 then kv :: l else kv' :: insert_by_key kv l'
  end.

Definition sort_by_key {A} (l : list (text * A)) : list (text * A) :=
  foldr insert_by_key [] l.

Definition hex_digit (n : Z) : Z := if decide (n < 10) then 48 + n else 87 + n.

(** A character inside a string literal: the quote, the backslash and
    the control characters are escaped, everything else is written as it
    is. *)
Definition escape_char (c : Z) : text :=
  match c with
  | 34 => [92; 34]
  | 92 => [92; 92]
  | 8 => lit "\b"
  | 12 => lit "\f"
  | 10 => lit "\n"
  | 13 => lit "\r"
  | 9 => lit "\t"
  | _ => if decide (0 ≤ c < 32)
         then lit "\u00" ++ [hex_digit (c / 16); hex_digit (c mod 16)]
         else [c]
  end.

Definition quote (s : text) : text := [34] ++ (s ≫= escape_char) ++ [34].

(** A newline and the indentation of a nesting level, two spaces each. *)
Definition newline_indent (level : nat) : text :=
  10 :: concat (replicate level [32; 32]).

(** The items of a list or dict, one per line. *)
Definition block (open close : Z) (level : nat) (items : list text) : text :=
  match items with
  | [] => [open; close]
  | first :: rest =>
      [open] ++ newline_indent (S level) ++ first
      ++ (rest ≫= λ item, [44] ++ newline_indent (S level) ++ item)
      ++ newline_indent level ++ [close]
  end.

Fixpoint dump (level : nat) (v : json) : text :=
  match v with
  | JNull => lit "null"
  | JBool true => lit "true"
  | JBool false => lit "false"
  | JInt n => lit (pretty n)
  | JStr s => quote s
  | JList items => block 91 93 level (dump (S level) <$> items)
  | JDict members =>
      block 123 125 level
        ((λ kv, quote kv.1 ++ lit ": " ++ kv.2)
           <$> sort_by_key ((λ kv, (kv.1, dump (S level) kv.2)) <$> members))
  end.

Definition dumps (v : json) : text := dump 0 v.

(** *** [json.load(f)] *)

Definition is_space (c : Z) : bool :=
  bool_decide (c = 32 ∨ c = 10 ∨ c = 13 ∨ c = 9).

Fixpoint skip_space (t : text) : text :=
  match t with
  | c :: t' => if is_space c then skip_space t' else t
  | [] => []
  end.

Definition hex_value (c : Z) : option Z :=
  if decide (48 ≤ c ≤ 57) then Some (c - 48)
  else if decide (97 ≤ c ≤ 102) then Some (c - 87)
  else if decide (65 ≤ c ≤ 70) then Some (c - 55)
  else None.

(** The rest of a string literal, after its opening quote: the string
    and the text that follows the closing quote. *)
Fixpoint parse_string (t : text) : option (text * text) :=
  match t with
  | [] => None
  | 34 :: rest => Some ([], rest)
  | 92 :: 117 :: h1 :: h2 :: h3 :: h4 :: rest =>
      a ← hex_value h1; b ← hex_value h2; c ← hex_value h3; d ← hex_value h4;
      '(s, rest') ← parse_string rest;
      Some (((a * 16 + b) * 16 + c) * 16 + d :: s, rest')
  | 92 :: e :: rest =>
      c ← match e with
          | 34 => Some 34 | 92 => Some 92 | 47 => Some 47 | 98 => Some 8
          | 102 => Some 12 | 110 => Some 10 | 114 => Some 13 | 116 => Some 9
          | _ => None
          end;
      '(s, rest') ← parse_string rest;
      Some (c :: s, rest')
  | c :: rest =>
      if decide (0 ≤ c < 32) then None
      else '(s, rest') ← parse_string rest; Some (c :: s, rest')
  end.

(** The digits at the head of a text, as a number, and what follows. *)
Fixpoint parse_digits (acc : Z) (t : text) : Z * text :=
  match t with
  | c :: t' =>
      if decide (48 ≤ c ≤ 57) then parse_digits (acc * 10 + (c - 48)) t'
      else (acc, t)
  | [] => (acc, [])
  end.

Definition is_digit (t : text) : bool :=
  match t with c :: _ => bool_decide (48 ≤ c ≤ 57) | [] => false end.

(** The digits of an integer: a zero alone, or digits that start with
    another digit; what follows a leading zero is left unread. *)
Definition parse_int (t : text) : Z * text :=
  match t with
  | 48 :: rest => (0, rest)
  | _ => parse_digits 0 t
  end.

(** A value at the head of a text, and the text after it. The fuel
    bounds the number of values and separators read. Numbers are
    integers: [json] has no floats, so a text with a fraction or an
    exponent, which [json.load] reads as a float, is outside this model
    and has no result here. *)
Fixpoint parse_value (fuel : nat) (t : text) : option (json * text) :=
  match fuel with
  | O => None
  | S fuel' =>
      match skip_space t with
      | 110 :: 117 :: 108 :: 108 :: rest => Some (JNull, rest)
      | 116 :: 114 :: 117 :: 101 :: rest => Some (JBool true, rest)
      | 102 :: 97 :: 108 :: 115 :: 101 :: rest => Some (JBool false, rest)
      | 34 :: rest => '(s, rest') ← parse_string rest; Some (JStr s, rest')
      | 91 :: rest =>
          match skip_space rest with
          | 93 :: rest' => Some (JList [], rest')
          | _ => '(items, rest') ← parse_items fuel' rest; Some (JList items, rest')
          end
      | 123 :: rest =>
          match skip_space rest with
          | 125 :: rest' => Some (JDict [], rest')
          | _ => '(members, rest') ← parse_members fuel' rest;
                 Some (JDict members, rest')
          end
      | 45 :: rest =>
          if is_digit rest
          then let '(n, rest') := parse_int rest in Some (JInt (- n), rest')
          else None
      | rest =>
          if is_digit rest
          then let '(n, rest') := parse_int rest in Some (JInt n, rest')
          else None
      end
  end
with parse_items (fuel : nat) (t : text) : option (list json * text) :=
  match fuel with
  | O => None
  | S fuel' =>
      '(v, rest) ← parse_value fuel' t;
      match skip_space rest with
      | 44 :: rest' =>
          '(vs, rest'') ← parse_items fuel' rest'; Some (v :: vs, rest'')
      | 93 :: rest' => Some ([v], rest')
      | _ => None
      end
  end
with parse_members (fuel : nat) (t : text) : option (list (text * json) * text) :=
  match fuel with
  | O => None
  | S fuel' =>
      match skip_space t with
      | 34 :: rest =>
          '(key, rest1) ← parse_string rest;
          match skip_space rest1 with
          | 58 :: rest2 =>
              '(v, rest3) ← parse_value fuel' rest2;
              match skip_space rest3 with
              | 44 :: rest4 =>
                  '(ms, rest5) ← parse_members fuel' rest4;
                  Some ((key, v) :: ms, rest5)
              | 125 :: rest4 => Some ([(key, v)], rest4)
              | _ => None
              end
          | _ => None
          end
      | _ => None
      end
  end.

(** A later member replaces an earlier one with the same key, at the
    earlier one's place, as assignments into a Python dict do. *)
Fixpoint dict_set (key : text) (v : json) (members : list (text * json))
    : list (text * json) :=
  match members with
  | [] => [(key, v)]
  | kv :: rest =>
      if decide (kv.1 = key) then (key, v) :: rest
      else kv :: dict_set key v rest
  end.

Fixpoint as_dicts (v : json) : json :=
  match v with
  | JList items => JList (as_dicts <$> items)
  | JDict members =>
      JDict (foldl (λ acc kv, dict_set kv.1 kv.2 acc) []
               ((λ kv, (kv.1, as_dicts kv.2)) <$> members))
  | _ => v
  end.

(** [json.loads]: one value, then nothing but white space. *)
Definition loads (t : text) : option json :=
  '(v, rest) ← parse_value (S (length t)) t;
  if decide (skip_space rest = []) then Some (as_dicts v) else None.

(** *** [saveSettings] and [loadSettings] *)

(** The files on disk, and the platform's preferred encoding, which
    [open(filename)] uses when the call names none. *)
Record platform : Type := Platform {
  files : gmap string bytes;
  preferred_encoding : encoding
}.

Inductive error : Type :=
| UnicodeEncodeError | UnicodeDecodeError | JSONDecodeError | FileNotFoundError.

(** [saveSettings(filename)], for the mapping [self.settings(True)]
    returns: the text of [json.dump] is written through a file opened
    with [encoding="UTF-8"]. *)
Definition saveSettings (settings : json) (filename : string) (p : platform)
    : error + platform :=
  match encode_utf8 (dumps settings) with
  | Some data => inr (Platform (<[filename := data]> (files p)) (preferred_encoding p))
  | None => inl UnicodeEncodeError
  end.

(** [loadSettings], once the file dialog has given [filename]: the file
    is opened with no encoding named, read, and parsed; the result is
    what [setSettings] stores in [self._settings]. *)
Definition loadSettings (filename : string) (p : platform) : error + json :=
  match files p !! filename with
  | None => inl FileNotFoundError
  | Some data =>
      match decode (preferred_encoding p) data with
      | None => inl UnicodeDecodeError
      | Some t =>
          match loads t with
          | None => inl JSONDecodeError
          | Some settings => inr settings
          end
      end
  end.
(** Saving the settings to a file and loading that file. *)
Definition save_then_load (settings : json) (filename : string) (p : platform)
    : error + json :=
  match saveSettings settings filename p with
  | inl e => inl e
  | inr p' => loadSettings filename p'
  end.

(** A mapping with every dict in key order: two mappings with the same
    keys and values have the same one. *)
Fixpoint sort_keys (v : json) : json :=
  match v with
  | JList items => JList (sort_keys <$> items)
  | JDict members =>
      JDict (sort_by_key ((λ kv, (kv.1, sort_keys kv.2)) <$> members))
  | _ => v
  end.

(** *** Settings to run the pair on *)

(** An output file in a folder whose name has an e with an acute accent
    (U+00E9), a template, the plugin's version, and the properties of the
    DEM, in the order the dialog stores them. *)
Definition example_settings : json :=
  JDict [(lit "PluginVersion", JStr (lit "2.0"));
         (lit "Template", JStr (lit "3DViewer.html"));
         (lit "OutputFilename", JStr (lit "C:/caf" ++ [233] ++ lit "/scene.html"));
         (lit "DEM", JDict [(lit "spinBox_Roughening", JInt 16);
                            (lit "checkBox_Sides", JBool true)])].

(** The same settings with the two UTF-8 bytes of the accented letter,
    C3 and A9, taken for a letter each. *)
Definition example_settings_misread : json :=
  JDict [(lit "DEM", JDict [(lit "checkBox_Sides", JBool true);
                            (lit "spinBox_Roughening", JInt 16)]);
         (lit "OutputFilename",
          JStr (lit "C:/caf" ++ [195; 169] ++ lit "/scene.html"));
         (lit "PluginVersion", JStr (lit "2.0"));
         (lit "Template", JStr (lit "3DViewer.html"))].
End Dialog.

(** * The rest of the code *)

(** ** datamanager.py: the rest of ModelManager *)

Module ModelFiles.
Import DataManager ModelManager.

(** An entry of [filesToCopy]: [{"files": [...], "dest": ...}]. *)
Record copy_entry : Type := CopyEntry { files : list string; dest : string }.

Definition filesToCopy (m : t) : list copy_entry :=
  if _collada m
  then [CopyEntry ["js/threejs/loaders/ColladaLoader.js"] "threejs/loaders"]
  else [].

(** A run of [modelIndex] calls, each a path and a model type, keeping
    the last manager. *)
Fixpoint modelIndex_all (requests : list (string * string)) (m : t) : option t :=
  match requests with
  | [] => Some m
  | (path, model_type) :: rest =>
      '(_, m') ← modelIndex path model_type m; modelIndex_all rest m'
  end.

(** What the viewer's JavaScript reads from the text between the quotes
    of [data:'...']: the five escapes [escape] writes, each read back as
    its character. A backslash before anything else, or at the end, is
    [None]: no such text comes out of [escape]. *)
Fixpoint unescape (s : string) : option string :=
  match s with
  | EmptyString => Some EmptyString
  | String c rest =>
      if decide (c = ascii_of_nat 92) then
        match rest with
        | EmptyString => None
        | String e rest' =>
            c' ← (if decide (e = ascii_of_nat 92) then Some e
                  else if decide (e = "'"%char) then Some e
                  else if decide (e = "t"%char) then Some tab
                  else if decide (e = "r"%char) then Some cr
                  else if decide (e = "n"%char) then Some lf
                  else None);
            String c' <$> unescape rest'
        end
      else String c <$> unescape rest
  end.
End ModelFiles.

(** ** datamanager.py: MaterialManager.write *)

Module MaterialWrite.
Import DataManager MaterialManager.

(** [toMaterialType]: the dict from a descriptor's type to the material
    type written for it. *)
Definition toMaterialType : gmap Z Z :=
  list_to_map [(WIREFRAME, MESH_LAMBERT); (MESH_LAMBERT_FLAT, MESH_LAMBERT);
               (CANVAS_IMAGE, MESH_PHONG); (MAP_IMAGE, MESH_PHONG);
               (LAYER_IMAGE, MESH_PHONG); (IMAGE_FILE, MESH_PHONG)].

Section write.
Context {Extent : Type} `{EqDecision Extent}.

Abbreviation material := (MaterialManager.material Extent).
Abbreviation image := (ImageManager.image Extent).

(** A value of the dict [m]: an integer, a number, or the second
    component of the descriptor as it is (the colour string, for a colour
    material). *)
Inductive value : Type :=
| VInt (n : Z)
| VNum (q : Qc)
| VData (data : payload Extent).

(** The dict [m], in insertion order; no key is assigned twice. *)
Abbreviation dict := (list (string * value)).

(** [tools.pyobj2js(m, quoteHex=False)], which is not part of this file. *)
Variable pyobj2js : dict → string.

(** The manager ([self._list], [self.writtenCount]), the image manager's
    list, and what has been written to [f]. *)
Record state : Type := State {
  _list : list material;
  writtenCount : nat;
  images : list image;
  written : list string
}.

(** The image branches of the loop body: the index of the material's
    image in the image manager, and the transparency flag. [None] stands
    for a descriptor whose second component does not fit its type, which
    no method of the manager builds. *)
Definition image_entry (mat : material) (imgs : list image)
    : option (option (nat * bool) * list image) :=
  let type := mat_type mat in
  if decide (type = CANVAS_IMAGE) then
    match mat_data mat with
    | Canvas transp_background =>
        '(i, imgs') ← ImageManager.canvasImageIndex transp_background imgs;
        Some (Some (i, transp_background), imgs')
    | _ => None
    end
  else if decide (type = MAP_IMAGE) then
    match mat_data mat with
    | MapImage width height extent transp_background =>
        '(i, imgs') ← ImageManager.mapImageIndex width height extent
                        transp_background imgs;
        Some (Some (i, transp_background), imgs')
    | _ => None
    end
  else if decide (type = LAYER_IMAGE) then
    match mat_data mat with
    | LayerImage layerids width height extent transp_background =>
        '(i, imgs') ← ImageManager.layerImageIndex layerids width height extent
                        transp_background imgs;
        Some (Some (i, transp_background), imgs')
    | _ => None
    end
  else if decide (type = IMAGE_FILE ∨ type = SPRITE) then
    match mat_data mat with
    | ImageFile filepath transp_background =>
        '(i, imgs') ← ImageManager.imageIndex filepath imgs;
        Some (Some (i, transp_background), imgs')
    | _ => None
    end
  else Some (None, imgs).

(** [m[key] = v] when [c] holds. *)
Definition set_if (c : bool) (key : string) (v : value) (m : dict) : dict :=
  if c then m ++ [(key, v)] else m.

(** The dict built for one material, and the image manager's list after
    it. *)
Definition describe (mat : material) (imgs : list image)
    : option (dict * list image) :=
  let m := [("type", VInt (default (mat_type mat) (toMaterialType !! mat_type mat)))] in
  '(entry, imgs') ← image_entry mat imgs;
  let '(m, transp_background) :=
    match entry with
    | Some (i, transp_background) =>
        (m ++ [("i", VInt (Z.of_nat i))], transp_background)
    | None => (m ++ [("c", VData (mat_data mat))], false)
    end in
  let m := set_if transp_background "t" (VInt 1) m in
  let m := set_if (bool_decide (mat_type mat = WIREFRAME)) "w" (VInt 1) m in
  let m := set_if (bool_decide (mat_type mat = MESH_LAMBERT_FLAT)) "flat" (VInt 1) m in
  let m := set_if (bool_decide (mat_opacity mat < 1)%Qc) "o"
             (VNum (mat_opacity mat)) m in
  let m := set_if (mat_doubleSide mat) "ds" (VInt 1) m in
  Some (m, imgs').

(** ["lyr.m[{0}] = {1};\n".format(index, ...)] *)
Definition material_line (index : nat) (m : dict) : string :=
  "lyr.m[" +:+ pretty index +:+ "] = " +:+ pyobj2js m +:+ ";" +:+ ModelManager.newline.

(** The loop over [self._list[self.writtenCount:]]. *)
Fixpoint write_loop (mats : list material) (s : state) : option state :=
  match mats with
  | [] => Some s
  | mat :: rest =>
      '(m, imgs') ← describe mat (images s);
      write_loop rest
        (State (_list s) (S (writtenCount s)) imgs'
               (written s ++ [material_line (writtenCount s) m]))
  end.

Definition write (s : state) : option state :=
  if decide (length (_list s) ≤ writtenCount s) then Some s
  else write_loop (drop (writtenCount s) (_list s)) s.

(** The image a material of an image type refers to. *)
Definition material_image (mat : material) : option image :=
  match mat_data mat with
  | Color _ => None
  | Canvas transp_background => Some (ImageManager.CANVAS_IMAGE transp_background)
  | MapImage width height extent transp_background =>
      Some (ImageManager.MAP_IMAGE width height extent transp_background)
  | LayerImage layerids width height extent transp_background =>
      Some (ImageManager.LAYER_IMAGE layerids width height extent transp_background)
  | ImageFile path _ => Some (ImageManager.IMAGE_FILE path)
  end.

(** The descriptors the manager's methods build: a colour under one of
    the four colour types, and each image payload under its own type (an
    image file also under [SPRITE]). *)
Definition well_tagged (mat : material) : Prop :=
  match mat_data mat with
  | Color _ =>
      mat_type mat = MESH_LAMBERT ∨ mat_type mat = MESH_LAMBERT_FLAT
      ∨ mat_type mat = LINE_BASIC ∨ mat_type mat = WIREFRAME
  | Canvas _ => mat_type mat = CANVAS_IMAGE
  | MapImage _ _ _ _ => mat_type mat = MAP_IMAGE
  | LayerImage _ _ _ _ _ => mat_type mat = LAYER_IMAGE
  | ImageFile _ _ => mat_type mat = IMAGE_FILE ∨ mat_type mat = SPRITE
  end.







End write.


End MaterialWrite.

(** ** qgis2threejsdialog.py: the settings mapping *)

Module SettingsMapping.
Import Dialog.
Local Open Scope Z_scope.

(** A Python dict with string keys, in insertion order. *)
Abbreviation members := (list (text * json)).

(** [d.get(key)]: [None] when the key is missing. *)
Definition lookup (key : text) (d : members) : option json := get key (JDict d).

(** [del d[key]], for a key of [d]. *)
Fixpoint dict_del (key : text) (d : members) : members :=
  match d with
  | [] => []
  | kv :: rest => if decide (kv.1 = key) then rest else kv :: dict_del key rest
  end.

(** The item of the tree whose properties are saved: a top level item
    with its id, or a layer item with its parent's id and its own. *)
Inductive tree_item : Type :=
| TopItem (id : text)
| LayerItem (parentId layerId : text).

Inductive error : Type := TypeError | AttributeError.

(** [saveProperties(item, page)], with [properties] what
    [page.properties()] returns. Assigning into [self._settings[parentId]]
    raises when that value is not a dict. *)
Definition saveProperties (item : tree_item) (properties : json) (settings : members)
    : error + members :=
  match item with
  | TopItem id => inr (dict_set id properties settings)
  | LayerItem parentId layerId =>
      let settings :=
        if decide (is_Some (lookup parentId settings)) then settings
        else dict_set parentId (JDict []) settings in
      match lookup parentId settings with
      | Some (JDict parent) =>
          inr (dict_set parentId (JDict (dict_set layerId properties parent)) settings)
      | _ => inl TypeError
      end
  end.

(** [self._settings.get(parentId, {}).get(layerId, None)], which
    [currentObjectChanged] hands to the page of a layer; a value under
    [parentId] that is not a dict has no [get]. *)
Definition layer_properties (parentId layerId : text) (settings : members)
    : error + option json :=
  match default (JDict []) (lookup parentId settings) with
  | JDict parent => inr (lookup layerId parent)
  | _ => inl AttributeError
  end.

(** [self._settings.get(parentId, {}).get(layerId, {}).get("visible", False)]
    of [initObjectTree], as a truth value; a value on the way that is not
    a dict has no [get]. *)
Definition truth (v : json) : bool :=
  match v with
  | JNull | JBool false | JInt 0 | JStr [] | JList [] | JDict [] => false
  | _ => true
  end.

Definition isVisible (parentId layerId : text) (settings : members) : error + bool :=
  match default (JDict []) (lookup parentId settings) with
  | JDict parent =>
      match default (JDict []) (lookup layerId parent) with
      | JDict properties =>
          inr (truth (default (JBool false) (lookup (lit "visible") properties)))
      | _ => inl AttributeError
      end
  | _ => inl AttributeError
  end.

Section settings.
(** Names from modules that are not part of this file: the plugin's
    version, the ids of the four categories of layers, and whether the
    project's registry knows a layer id
    ([registry.mapLayer(layerId) is not None]). *)
Variable plugin_version : text.
Variables ITEM_OPTDEM ITEM_POINT ITEM_LINE ITEM_POLYGON : text.
Variable registered : text → bool.

(** The inner loop: [for layerId in list(parent.keys())], deleting the
    ids the registry does not know. *)
Definition remove_unregistered (parent : members) : members :=
  foldl (λ parent layerId,
           if registered layerId then parent else dict_del layerId parent)
        parent parent.*1.

(** One round of the outer loop. The dict found under [itemId] is changed
    in place; a missing [itemId] gives a new empty dict, which is dropped;
    a value that is not a dict has no [keys]. *)
Definition clean_item (settings : members) (itemId : text) : error + members :=
  match lookup itemId settings with
  | None => inr settings
  | Some (JDict parent) =>
      inr (dict_set itemId (JDict (remove_unregistered parent)) settings)
  | Some _ => inl AttributeError
  end.

Definition layer_items : list text :=
  [ITEM_OPTDEM; ITEM_POINT; ITEM_LINE; ITEM_POLYGON].

Fixpoint clean_items (itemIds : list text) (settings : members) : error + members :=
  match itemIds with
  | [] => inr settings
  | itemId :: rest =>
      match clean_item settings itemId with
      | inl e => inl e
      | inr settings' => clean_items rest settings'
      end
  end.

(** [settings(clean)]. [current] is the current tree item and the
    properties of the current page, when there are both; [template] and
    [filename] are the texts of the template box and of the output file
    name field. *)
Definition settings (current : option (tree_item * json)) (template filename : text)
    (clean : bool) (s : members) : error + members :=
  match (match current with
         | Some (item, properties) => saveProperties item properties s
         | None => inr s
         end) with
  | inl e => inl e
  | inr s =>
      let s := dict_set (lit "PluginVersion") (JStr plugin_version) s in
      let s := dict_set (lit "Template") (JStr template) s in
      let s := dict_set (lit "OutputFilename") (JStr filename) s in
      if clean then clean_items layer_items s else inr s
  end.

(** A dict with the layer ids the registry does not know taken out; any
    other value as it is. *)
Definition registered_only (v : json) : json :=
  match v with
  | JDict parent => JDict (filter (λ kv, registered kv.1 = true) parent)
  | _ => v
  end.
End settings.

(** A registry that knows the layer [roads] only, and settings with that
    point layer and one that is gone. *)
Definition sample_registered (layerId : text) : bool := bool_decide (layerId = lit "roads").

Definition sample_settings : members :=
  [(lit "POINT", JDict [(lit "roads", JDict [(lit "visible", JBool true)]);
                        (lit "gone", JDict [(lit "visible", JBool true)])]);
   (lit "DEM", JDict [(lit "comboBox_DEMLayer", JStr (lit "srtm"))])].

Definition sample_settings_of (clean : bool) : error + members :=
  settings (lit "1.4") (lit "OPTDEM") (lit "POINT") (lit "LINE") (lit "POLYGON")
    sample_registered None (lit "3DViewer.html") (lit "index.html") clean sample_settings.

Definition sample_saved : members :=
  match sample_settings_of false with inr s => s | inl _ => [] end.
End SettingsMapping.

(** ** datamanager.py: ImageManager, the images and their files *)

Module ImageWrite.
Import DataManager.
Section images.
Context {Extent Rect Angle Color Layer Image : Type}.
Context `{!ImageManager.Host Extent Rect Angle Color Layer Image}.

(** What the export settings and the modules outside this file give:
    [exportSettings.baseExtent], [os.path.isfile], [QImage(path)] and the
    light gray image of one pixel. *)
Variable baseExtent : Extent.
Variable isfile : string → bool.
Variable load : string → Image.
Variable gray_pixel : Image.

(** The shared map settings, the messages logged and the files that
    [QImage.save] has written, in order. *)
Record world : Type := World {
  mapSettings : ImageManager.QgsMapSettings Rect Angle Color Layer;
  logged : list string;
  saved : list (string * Image)
}.

Definition render (c : ImageManager.st Image) (w : world) : Image * world :=
  let '(img, s) := c (mapSettings w) in (img, World s (logged w) (saved w)).

(** [mapCanvasImage]: the test [canvas is None or transp_background or
    True] always holds, so the image is always rendered. *)
Definition mapCanvasImage (transp_background : bool) : ImageManager.st Image :=
  size ← ImageManager.get ImageManager.outputSize;
  ImageManager.renderedImage size.1 size.2 baseExtent transp_background None.

Definition not_found_message (image_path : string) : string :=
  "Image file not found: " +:+ image_path.

(** [image(index)], for an index that is not negative; [None] is the
    [IndexError] of [self._list[index]]. *)
Definition image (index : nat) (l : list (ImageManager.image Extent)) (w : world)
    : option (Image * world) :=
  match l !! index with
  | None => None
  | Some (ImageManager.IMAGE_FILE image_path) =>
      if isfile image_path then Some (load image_path, w)
      else Some (gray_pixel,
                 World (mapSettings w) (logged w ++ [not_found_message image_path])
                   (saved w))
  | Some (ImageManager.MAP_IMAGE width height ext transp_background) =>
      Some (render (ImageManager.renderedImage width height ext transp_background None) w)
  | Some (ImageManager.LAYER_IMAGE layerids width height ext transp_background) =>
      Some (render (ImageManager.renderedImage width height ext transp_background
                      (Some layerids)) w)
  | Some (ImageManager.CANVAS_IMAGE transp_background) =>
      Some (render (mapCanvasImage transp_background) w)
  end.

(** [QImage.save(path)]. *)
Definition save (path : string) (img : Image) (w : world) : world :=
  World (mapSettings w) (logged w) (saved w ++ [(path, img)]).

(** [write(index, path)]. *)
Definition write (index : nat) (path : string) (l : list (ImageManager.image Extent))
    (w : world) : option world :=
  match image index l w with
  | Some (img, w) => Some (save path img w)
  | None => None
  end.

(** ["{}_IMG{}.png".format(pathRoot, i)]. *)
Definition file_name (pathRoot : string) (i : nat) : string :=
  pathRoot +:+ "_IMG" +:+ pretty i +:+ ".png".

(** [for i in range(self.count())], from [i] on, [n] rounds. *)
Fixpoint writeAll_from (pathRoot : string) (i n : nat)
    (l : list (ImageManager.image Extent)) (w : world) : option world :=
  match n with
  | 0 => Some w
  | S n =>
      match write i (file_name pathRoot i) l w with
      | Some w => writeAll_from pathRoot (S i) n l w
      | None => None
      end
  end.

Definition writeAll (pathRoot : string) (l : list (ImageManager.image Extent))
    (w : world) : option world :=
  writeAll_from pathRoot 0 (count l) l w.

(** The message that [image] logs for an entry of the list, if any. *)
Definition missing_file (img : ImageManager.image Extent) : option string :=
  match img with
  | ImageManager.IMAGE_FILE image_path =>
      if isfile image_path then None else Some (not_found_message image_path)
  | _ => None
  end.
End images.

(** A list of three images on the small host, one of them a file that is
    not there. *)
Definition sample_images : list (ImageManager.image (list Z * Z)) :=
  [ImageManager.CANVAS_IMAGE false; ImageManager.IMAGE_FILE "sky.png";
   ImageManager.LAYER_IMAGE ["tiles"] 256 256 ([10; 10; 20; 20]%Z, 30%Z) true].

Definition sample_world :
    world (Rect:=list Z) (Angle:=Z) (Color:=Z) (Layer:=DemoHost.layer)
      (Image:=bool * ImageManager.QgsMapSettings (list Z) Z Z DemoHost.layer * (Z * Z)) :=
  World DemoHost.canvas_settings [] [].

Definition sample_writeAll :=
  writeAll ([0; 0; 400; 300]%Z, 0%Z) (λ _, false)
    (λ _, (false, DemoHost.canvas_settings, (0, 0)%Z))
    (false, DemoHost.canvas_settings, (1, 1)%Z)
    "scene" sample_images sample_world.
End ImageWrite.

(** ** datamanager.py: MaterialManager.build and buildAll *)

Module MaterialBuild.
Import DataManager MaterialManager.
Section build.
Context {Extent Rect Angle Colour Layer Image : Type} `{EqDecision Extent}.
Context `{!ImageManager.Host Extent Rect Angle Colour Layer Image}.

(** What the image manager needs, as in [ImageWrite], and Python's
    [int(s, 16)], [None] for its [ValueError]. *)
Variable baseExtent : Extent.
Variable isfile : string → bool.
Variable load : string → Image.
Variable gray_pixel : Image.
Variable int16 : string → option Z.

Abbreviation material := (MaterialManager.material Extent).
Abbreviation image := (ImageManager.image Extent).
Abbreviation world := (ImageWrite.world (Rect:=Rect) (Angle:=Angle) (Color:=Colour)
                         (Layer:=Layer) (Image:=Image)).

(** A value of the dict [m]: an integer, a number, [{"object": image}]
    or [{"url": url}]. *)
Inductive value : Type :=
| VInt (n : Z)
| VNum (q : Qc)
| VObject (img : Image)
| VUrl (url : option string).

Abbreviation dict := (list (string * value)).

Definition set_if (c : bool) (key : string) (v : value) (m : dict) : dict :=
  if c then m ++ [(key, v)] else m.

(** [mat[0] in [CANVAS_IMAGE, MAP_IMAGE, LAYER_IMAGE, IMAGE_FILE, SPRITE]] *)
Definition is_image_material (mat : material) : bool :=
  bool_decide (mat_type mat ∈ [CANVAS_IMAGE; MAP_IMAGE; LAYER_IMAGE; IMAGE_FILE; SPRITE]).

(** [build(index, imageManager, filepath, url)], for an index that is
    not negative: the dict, and the image manager and the world after
    it. [None] stands for an exception. The four branches that find
    [imgIndex] are those of [write], see [MaterialWrite.image_entry]. *)
Definition build (index : nat) (filepath url : option string)
    (mats : list material) (imgs : list image) (w : world)
    : option (dict * list image * world) :=
  mat ← mats !! index;
  let m := [("type", VInt (default (mat_type mat)
                             (MaterialWrite.toMaterialType !! mat_type mat)))] in
  '(m, transp_background, imgs, w) ←
    (if is_image_material mat then
       found ← MaterialWrite.image_entry mat imgs;
       match found with
       | (Some (imgIndex, transp_background), imgs) =>
           match filepath with
           | None =>
               '(img, w) ← ImageWrite.image baseExtent isfile load gray_pixel
                             imgIndex imgs w;
               Some (m ++ [("image", VObject img)], transp_background, imgs, w)
           | Some filepath =>
               w ← ImageWrite.write baseExtent isfile load gray_pixel
                     imgIndex filepath imgs w;
               Some (m ++ [("image", VUrl url)], transp_background, imgs, w)
           end
       | (None, _) => None
       end
     else
       match mat_data mat with
       | Color color => c ← int16 color; Some (m ++ [("c", VInt c)], false, imgs, w)
       | _ => None
       end);
  let m := set_if transp_background "t" (VInt 1) m in
  let m := set_if (bool_decide (mat_type mat = WIREFRAME)) "w" (VInt 1) m in
  let m := set_if (bool_decide (mat_type mat = MESH_LAMBERT_FLAT)) "flat" (VInt 1) m in
  let m := set_if (bool_decide (mat_opacity mat < 1)%Qc) "o" (VNum (mat_opacity mat)) m in
  let m := set_if (mat_doubleSide mat) "ds" (VInt 1) m in
  Some (m, imgs, w).

(** ["{0}".format(root)], for a string or [None]. *)
Definition format_root (root : option string) : string := default "None" root.

(** [for i in range(len(self._list))], from [i] on, [n] rounds. *)
Fixpoint buildAll_from (pathRoot urlRoot : option string) (i n : nat)
    (mats : list material) (mList : list dict) (imgs : list image) (w : world)
    : option (list dict * list image * world) :=
  match n with
  | 0 => Some (mList, imgs, w)
  | S n =>
      let filepath := ImageWrite.file_name (format_root pathRoot) i in
      let url := ImageWrite.file_name (format_root urlRoot) i in
      '(m, imgs, w) ← build i (Some filepath) (Some url) mats imgs w;
      buildAll_from pathRoot urlRoot (S i) n mats (mList ++ [m]) imgs w
  end.

Definition buildAll (pathRoot urlRoot : option string) (mats : list material)
    (imgs : list image) (w : world) : option (list dict * list image * world) :=
  buildAll_from pathRoot urlRoot 0 (length mats) mats [] imgs w.

(** The colour of a colour material is one that [int(s, 16)] reads. *)
Definition colour_parses (mat : material) : Prop :=
  match mat_data mat with
  | Color color => is_Some (int16 color)
  | _ => True
  end.

(** The files written for the materials from index [i] on: one for each
    image material, named by the material's index. *)
Fixpoint image_files (root : string) (i : nat) (mats : list material) : list string :=
  match mats with
  | [] => []
  | mat :: rest =>
      (if is_image_material mat then [ImageWrite.file_name root i] else [])
      ++ image_files root (S i) rest
  end.
End build.

(** Three materials on the small host: a colour, a sprite and the canvas
    image, built with no path root and no url root given. *)
Definition sample_materials : list (MaterialManager.material (list Z * Z)) :=
  [Material WIREFRAME (MaterialManager.Color "0xff0000") 1 false;
   Material SPRITE (ImageFile "tree.png" true) 1 false;
   Material CANVAS_IMAGE (Canvas false) 1 true].

Definition sample_int16 (s : string) : option Z :=
  if decide (s = "0xff0000") then Some 16711680%Z else None.

Definition sample_buildAll :=
  buildAll ([0; 0; 400; 300]%Z, 0%Z) (λ _, false)
    (λ _, (false, DemoHost.canvas_settings, (0, 0)%Z))
    (false, DemoHost.canvas_settings, (1, 1)%Z) sample_int16
    None None sample_materials [] ImageWrite.sample_world.
End MaterialBuild.

(** ** qgis2threejsdialog.py: the output file name chosen by browsing *)

Module BrowseFilename.
Import Dialog.
Section browse.
(** Python's [str.lower], which is not part of this file. *)
Variable lower : text → text.

(** [s[-n:]], for a positive [n]: the last [n] characters, or all of [s]
    when it has fewer. *)
Definition last_chars (n : nat) (s : text) : text := drop (length s - n) s.

(** The negation of the test of [browseClicked]:
    [filename[-5:].lower() != ".html" and filename[-4:].lower() != ".htm"]. *)
Definition has_extension (filename : text) : bool :=
  bool_decide (lower (last_chars 5 filename) = lit ".html")
  || bool_decide (lower (last_chars 4 filename) = lit ".htm").

Definition with_extension (filename : text) : text :=
  if has_extension filename then filename else filename ++ lit ".html".

(** [browseClicked]: [chosen] is the file name the file dialog returns,
    empty when it is cancelled, and [current] the text of the output file
    name field; the result is the text of the field afterwards. *)
Definition browseClicked (chosen current : text) : text :=
  match chosen with
  | [] => current
  | _ => with_extension chosen
  end.
End browse.

(** Lower case for the letters A to Z, as [str.lower] has it on them. *)
Definition ascii_lower (s : text) : text :=
  (λ c, if decide (65 ≤ c ≤ 90)%Z then (c + 32)%Z else c) <$> s.
End BrowseFilename.
(** * Properties *)

(** ** The deduplicating index *)

Section DataManager_facts.
Import DataManager.
Context {A : Type} `{EqDecision A}.
Implicit Types (l : list A) (d : A).

Lemma list_index_Some l d i :
  list_index l d = Some i ↔
  l !! i = Some d ∧ ∀ j, j < i → l !! j ≠ Some d.
Proof.
  unfold list_index. split.
  - destruct (list_find _ l) as [[k x]|] eqn:E; simpl; [|done].
    intros [= ->]. apply list_find_Some in E as (Hk & -> & Hmin).
    split; [done|]. intros j Hj Hlk. by apply (Hmin j d).
  - intros [Hi Hmin].
    assert (list_find (λ y, y = d) l = Some (i, d)) as ->; [|done].
    apply list_find_Some. split_and!; [done..|].
    intros j y Hy Hj ->. by apply (Hmin j).
Qed.

Lemma list_index_elem l d : d ∈ l → is_Some (list_index l d).
Proof.
  intros Hd. unfold list_index.
  destruct (list_find_elem_of (λ y, y = d) l d Hd eq_refl) as [[i x] ->].
  by eexists.
Qed.

Lemma list_index_app l k d i :
  list_index l d = Some i → list_index (l ++ k) d = Some i.
Proof.
  unfold list_index.
  destruct (list_find _ l) as [[j x]|] eqn:E; simpl; [|done].
  intros [= ->]. by rewrite (list_find_app_l _ _ _ _ _ E).
Qed.

(** A descriptor already listed keeps the list and gets a position that
    holds it. *)
Lemma _index_old l d :
  d ∈ l → ∃ i, _index d l = Some (i, l) ∧ list_index l d = Some i.
Proof.
  intros Hd. unfold _index. rewrite decide_True by done.
  destruct (list_index_elem l d Hd) as [i Hi]. exists i. by rewrite Hi.
Qed.

(** A descriptor not yet listed is appended and gets the old length. *)
Lemma _index_new l d : d ∉ l → _index d l = Some (length l, l ++ [d]).
Proof. intros Hd. unfold _index. by rewrite decide_False. Qed.

(** Whatever the list, [_index] returns, the list only grows at its end,
    and the descriptor sits at the returned index afterwards. *)
Lemma _index_total l d :
  ∃ i k, _index d l = Some (i, l ++ k) ∧ list_index (l ++ k) d = Some i.
Proof.
  destruct (decide (d ∈ l)) as [Hd|Hd].
  - destruct (_index_old l d Hd) as (i & Hi & Hl).
    exists i, []. by rewrite app_nil_r.
  - exists (length l), [d]. split; [by apply _index_new|].
    apply list_index_Some. split.
    + by rewrite lookup_app_r, Nat.sub_diag.
    + intros j Hj Hlk. rewrite lookup_app_l in Hlk by done.
      apply Hd. by eapply list_elem_of_lookup_2.
Qed.

Lemma index_all_grows ds l : ∃ k, index_all ds l = Some (l ++ k).
Proof.
  revert l. induction ds as [|d ds IH]; intros l; simpl.
  - exists []. by rewrite app_nil_r.
  - destruct (_index_total l d) as (i & k & -> & _). simpl.
    destruct (IH (l ++ k)) as [k' ->]. exists (k ++ k'). by rewrite app_assoc.
Qed.

(** Once a descriptor has an index, a later call finds it there, however
    the list has grown in between. *)
Lemma _index_again l d i l1 k :
  _index d l = Some (i, l1) → _index d (l1 ++ k) = Some (i, l1 ++ k).
Proof.
  intros Hi. destruct (_index_total l d) as (i' & k0 & Hi' & Hl).
  rewrite Hi' in Hi. injection Hi as -> <-.
  assert (d ∈ (l ++ k0) ++ k) as Hin.
  { apply list_index_Some in Hl as [Hl _].
    apply elem_of_app. left. by eapply list_elem_of_lookup_2. }
  destruct (_index_old _ d Hin) as (j & Hj & Hlj).
  rewrite (list_index_app _ k _ _ Hl) in Hlj. by injection Hlj as <-.
Qed.

(** C1. For structurally equal descriptors [d1] and [d2], in every
    manager of the family (they all call [DataManager._index], here at any
    descriptor type): the first call returns an index; when the descriptor
    is new it is appended, the count grows by exactly one and the index is
    the previous count; when it is listed already the list is unchanged;
    and after any further calls [ds], a call with the equal descriptor
    returns the same index and leaves the list, hence the count, as it
    is. *)
Theorem index_dedup l (d1 d2 : A) (ds : list A) :
  d1 = d2 →
  ∃ i l1,
    _index d1 l = Some (i, l1)
    ∧ (d1 ∉ l → i = count l ∧ l1 = l ++ [d1] ∧ count l1 = S (count l))
    ∧ (d1 ∈ l → l1 = l ∧ l !! i = Some d1)
    ∧ ∃ l2, index_all ds l1 = Some l2
        ∧ _index d2 l2 = Some (i, l2)
        ∧ count l1 ≤ count l2.
Proof.
  intros <-.
  destruct (_index_total l d1) as (i & k & Hi & Hl).
  exists i, (l ++ k). split; [done|]. split_and!.
  - intros Hnew. rewrite (_index_new l d1 Hnew) in Hi.
    injection Hi as <- Hk. apply app_inv_head in Hk as <-.
    unfold count. rewrite length_app. simpl. split_and!; [done..|lia].
  - intros Hold. destruct (_index_old l d1 Hold) as (i' & Hi' & Hl').
    rewrite Hi' in Hi. injection Hi as -> Hk.
    rewrite <- Hk. split; [done|]. by apply list_index_Some in Hl' as [? _].
  - destruct (index_all_grows ds (l ++ k)) as [k' Hds].
    exists ((l ++ k) ++ k'). split_and!; [done| |].
    + by apply (_index_again l).
    + unfold count. rewrite (length_app (l ++ k)). lia.
Qed.

End DataManager_facts.

(** An instance: the image paths of the specification's scenario. *)
Lemma index_dedup_witness :
  ∃ i l1,
    DataManager._index "a.png" ["b.png"] = Some (i, l1)
    ∧ ("a.png" ∉ ["b.png"] → i = DataManager.count ["b.png"]
        ∧ l1 = ["b.png"] ++ ["a.png"]
        ∧ DataManager.count l1 = S (DataManager.count ["b.png"]))
    ∧ ("a.png" ∈ ["b.png"] → l1 = ["b.png"] ∧ ["b.png"] !! i = Some "a.png")
    ∧ ∃ l2, DataManager.index_all ["c.png"] l1 = Some l2
        ∧ DataManager._index "a.png" l2 = Some (i, l2)
        ∧ DataManager.count l1 ≤ DataManager.count l2.
Proof. apply (index_dedup (A:=string) ["b.png"] "a.png" "a.png" ["c.png"]). reflexivity. Defined.

(** The specification's scenario: the same image path twice gets the same
    index, and a third, different path the next one. *)
Example imageIndex_scenario :
  ImageManager.imageIndex (Extent:=()) "map.png" [] = Some (0, [ImageManager.IMAGE_FILE "map.png"])
  ∧ ImageManager.imageIndex (Extent:=()) "map.png" [ImageManager.IMAGE_FILE "map.png"]
    = Some (0, [ImageManager.IMAGE_FILE "map.png"])
  ∧ ImageManager.imageIndex (Extent:=()) "tree.png" [ImageManager.IMAGE_FILE "map.png"]
    = Some (1, [ImageManager.IMAGE_FILE "map.png"; ImageManager.IMAGE_FILE "tree.png"]).
Proof. split_and!; vm_compute; reflexivity. Qed.

(** A COLLADA model asks for the loader script; asking for it again adds
    no entry. *)
Example modelIndex_scenario :
  ModelManager.modelIndex "tree.dae" "COLLADA" ModelManager.init
  = Some (0, ModelManager.Manager [("COLLADA", "tree.dae")] true)
  ∧ ModelManager.modelIndex "tree.dae" "COLLADA"
      (ModelManager.Manager [("COLLADA", "tree.dae")] true)
    = Some (0, ModelManager.Manager [("COLLADA", "tree.dae")] true)
  ∧ ModelManager.scripts (ModelManager.Manager [("COLLADA", "tree.dae")] true)
    = ["threejs/loaders/ColladaLoader.js"].
Proof. split_and!; vm_compute; reflexivity. Qed.

(** ** The invalid-colour fallback of MaterialManager *)

Section MaterialManager_facts.
Import DataManager MaterialManager.
Context {Extent : Type} `{EqDecision Extent}.
Implicit Types (l : list (material Extent)) (color : string).


(** A colour that begins with [0x] is kept. *)
Lemma _indexCol_valid type color opacity doubleSide l :
  prefix2 color = "0x" →
  _indexCol type color opacity doubleSide l
  = _index (Material type (Color color) opacity doubleSide) l.
Proof. intros Hc. unfold _indexCol. rewrite decide_False; [done|]. by intros []. Qed.

End MaterialManager_facts.


(** ** ModelManager.write and model files that are not there *)

Section ModelManager_facts.
Import ModelManager.
Implicit Types (fs : gmap string node) (w : world) (models : list model).

(** An entry whose path is missing or names no regular file: the null
    line and a log message, and no exception. *)
Lemma write_model_not_file fs index model_type path w :
  isfile fs path = false →
  write_model fs index (model_type, path) w
  = (World (written w ++ [null_line index model_type])
           (logged w ++ [not_file_message fs path model_type]), inr ()).
Proof.
  intros Hf. unfold write_model. rewrite Hf, andb_false_r. reflexivity.
Qed.

(** An entry whose file is read: its escaped text, and no exception. *)
Lemma write_model_read fs index model_type path data w :
  fs !! path = Some (RegularFile (Some data)) →
  write_model fs index (model_type, path) w
  = (World (written w ++ [model_line index model_type (escape data)])
           (logged w), inr ()).
Proof.
  intros Hp. unfold write_model, exists_, isfile, read_file. rewrite Hp.
  rewrite bool_decide_true by eauto. reflexivity.
Qed.

(** An entry whose file cannot be read: the exception, nothing written. *)
Lemma write_model_unreadable fs index model_type path w :
  fs !! path = Some (RegularFile None) →
  write_model fs index (model_type, path) w = (w, inl (ReadError path)).
Proof.
  intros Hp. unfold write_model, exists_, isfile, read_file. rewrite Hp.
  rewrite bool_decide_true by eauto. by destruct w.
Qed.

(** The three cases above are all there are. *)
Lemma node_cases fs path :
  isfile fs path = false
  ∨ (∃ data, fs !! path = Some (RegularFile (Some data)))
  ∨ fs !! path = Some (RegularFile None).
Proof.
  unfold isfile. destruct (fs !! path) as [[[data|]|]|]; eauto.
Qed.

Lemma write_loop_cons fs index m rest w :
  write_loop fs index (m :: rest) w
  = match write_model fs index m w with
    | (w', inr _) => write_loop fs (S index) rest w'
    | (w', inl e) => (w', inl e)
    end.
Proof. reflexivity. Qed.

(** The loop, from any position: it writes one line per entry up to the
    first regular file it cannot read, and stops nowhere else. *)
Lemma write_loop_spec fs models index w :
  ∃ lines msgs,
    (write_loop fs index models w).1
    = World (written w ++ lines) (logged w ++ msgs)
    ∧ length lines ≤ length models
    ∧ ((write_loop fs index models w).2 = inr ()
       → length lines = length models)
    ∧ (∀ e, (write_loop fs index models w).2 = inl e →
         ∃ model_type path,
           models !! length lines = Some (model_type, path)
           ∧ fs !! path = Some (RegularFile None) ∧ e = ReadError path)
    ∧ (∀ i model_type path,
         i < length lines → models !! i = Some (model_type, path) →
         isfile fs path = false →
         lines !! i = Some (null_line (index + i) model_type)
         ∧ not_file_message fs path model_type ∈ msgs).
Proof.
  revert index w. induction models as [|[model_type path] rest IH]; intros index w.
  - exists [], []. simpl. rewrite !app_nil_r. destruct w.
    split_and!; [done..| |]; [intros e [=]|intros i ?? Hi; simpl in Hi; lia].
  - rewrite write_loop_cons.
    destruct (node_cases fs path) as [Hnf|[[data Hd]|Hu]].
    + rewrite (write_model_not_file _ _ _ _ _ Hnf).
      set (w1 := World _ _).
      destruct (IH (S index) w1) as (lines & msgs & Hw & Hlen & Hok & Herr & Hnull).
      exists (null_line index model_type :: lines),
             (not_file_message fs path model_type :: msgs).
      rewrite Hw. subst w1. simpl. rewrite <- !app_assoc. simpl.
      split_and!; [done|lia|intros Hr; f_equal; auto|exact Herr|].
      intros [|i] t p Hi Hlk Hf; simpl in *.
      * injection Hlk as <- <-. rewrite Nat.add_0_r. split; [done|]. left.
      * destruct (Hnull i t p) as [Hl Hm]; [lia|done..|].
        rewrite Nat.add_succ_r. split; [done|]. by right.
    + rewrite (write_model_read _ _ _ _ _ _ Hd).
      set (w1 := World _ _).
      destruct (IH (S index) w1) as (lines & msgs & Hw & Hlen & Hok & Herr & Hnull).
      exists (model_line index model_type (escape data) :: lines), msgs.
      rewrite Hw. subst w1. simpl. rewrite <- !app_assoc. simpl.
      split_and!; [done|lia|intros Hr; f_equal; auto|exact Herr|].
      intros [|i] t p Hi Hlk Hf; simpl in *.
      * injection Hlk as <- <-. unfold isfile in Hf. by rewrite Hd in Hf.
      * destruct (Hnull i t p) as [Hl Hm]; [lia|done..|].
        rewrite Nat.add_succ_r. by split.
    + rewrite (write_model_unreadable _ _ _ _ _ Hu).
      exists [], []. simpl. rewrite !app_nil_r. destruct w.
      split_and!; [done|lia|intros [=]| |intros i ?? Hi; lia].
      intros e [= <-]. by exists model_type, path.
Qed.

(** C7, as the code has it. [write] emits one line per entry up to the
    first regular file it cannot open or read, and stops nowhere else: an
    entry it reaches whose path is missing or names no regular file gets
    the null-payload line at its own index and a message in the log, and
    the loop goes on. When every regular file listed can be read, [write]
    returns normally with a line for every entry. *)
Theorem write_null_payload fs (m : t) w :
  ∃ lines msgs,
    (write fs m w).1
    = World (written w ++ (if decide (length (_list m) = 0) then []
                           else header :: lines))
            (logged w ++ msgs)
    ∧ length lines ≤ length (_list m)
    ∧ (∀ i model_type path,
         i < length lines → _list m !! i = Some (model_type, path) →
         isfile fs path = false →
         lines !! i = Some (null_line i model_type)
         ∧ not_file_message fs path model_type ∈ msgs)
    ∧ (∀ e, (write fs m w).2 = inl e →
         ∃ model_type path,
           _list m !! length lines = Some (model_type, path)
           ∧ fs !! path = Some (RegularFile None) ∧ e = ReadError path)
    ∧ ((∀ model_type path, (model_type, path) ∈ _list m →
          fs !! path ≠ Some (RegularFile None)) →
       (write fs m w).2 = inr () ∧ length lines = length (_list m)).
Proof.
  unfold write. destruct (decide (length (_list m) = 0)) as [Hz|Hnz].
  - exists [], []. simpl. rewrite !app_nil_r. destruct w. simpl.
    split_and!; [done|lia|intros i ?? Hi; simpl in Hi; lia|intros e [=]|].
    intros _. split; [done|]. by rewrite Hz.
  - set (w1 := World (written w ++ [header]) (logged w)).
    assert (∀ c : io unit, (f_write header;; c) w = c w1) as Hseq by done.
    rewrite Hseq.
    destruct (write_loop_spec fs (_list m) 0 w1)
      as (lines & msgs & Hw & Hlen & Hok & Herr & Hnull).
    exists lines, msgs. rewrite Hw. subst w1. simpl. rewrite <- app_assoc.
    split_and!; [done..|exact Hnull|exact Herr|].
    intros Hread.
    destruct ((write_loop fs 0 (_list m) _).2) as [e|[]] eqn:Hr.
    + destruct (Herr e eq_refl) as (t0 & p & Hlk & Hp & _).
      exfalso. apply (Hread t0 p); [|done]. by eapply list_elem_of_lookup_2.
    + split; [done|]. by apply Hok.
Qed.

(** The claim as first stated fails: a regular file whose bytes cannot be
    read as text makes [write] raise, and the export stops there. *)
Lemma write_aborts_on_unreadable_file :
  (write {["tree.dae" := RegularFile None]}
         (Manager [("COLLADA", "tree.dae")] true) (World [] [])).2
  = inl (ReadError "tree.dae").
Proof. vm_compute. reflexivity. Qed.

(** A run over a readable file, a missing path and a directory. *)
Example write_three_models :
  write (<["a.json" := RegularFile (Some "{}")]> {["models" := OtherNode]})
        (Manager [("JSON", "a.json"); ("JSON", "b.json"); ("COLLADA", "models")] true)
        (World [] [])
  = (World [header;
            model_line 0 "JSON" "{}";
            null_line 1 "JSON";
            null_line 2 "COLLADA"]
           ["3D model file not found: b.json (JSON)";
            "Not 3D model file path: models (COLLADA)"],
     inr ()).
Proof. vm_compute. reflexivity. Qed.
End ModelManager_facts.

(** ** renderedImage and the shared map settings *)

Section renderedImage_facts.
Import ImageManager.
Context {Extent Rect Angle Color Layer Image : Type}.
Context `{!Host Extent Rect Angle Color Layer Image}.
Implicit Types (s : QgsMapSettings Rect Angle Color Layer).

(** The settings after a call: four fields as they were, and the layers
    those the old layer ids resolve to. *)
Lemma renderedImage_settings width height ext transp_background layerids s :
  (renderedImage width height ext transp_background layerids s).2
  = MapSettings (outputSize s) (extent s) (rotation s)
      (getLayersByLayerIds (layer_id <$> layers s)) (backgroundColor s).
Proof.
  unfold renderedImage.
  destruct transp_background, (truthy layerids); reflexivity.
Qed.

(** C10, as the code has it. [renderedImage] leaves the shared map
    settings as it found them when [getLayersByLayerIds] resolves the
    ids of the settings' layers to those layers: output size, extent,
    rotation and background colour are put back from the values read at
    the start, and the layers are set from the old layer ids. *)
Theorem renderedImage_restores width height ext transp_background layerids s :
  getLayersByLayerIds (layer_id <$> layers s) = layers s →
  (renderedImage width height ext transp_background layerids s).2 = s.
Proof.
  intros Hl. rewrite renderedImage_settings, Hl. by destruct s.
Qed.
End renderedImage_facts.

(** An instance: a layer image of the tiles alone, with a transparent
    background, rendered from settings whose layers the project knows. *)
Lemma renderedImage_restores_witness :
  (ImageManager.renderedImage 256 256 ([10; 10; 20; 20]%Z, 30%Z) true
     (Some ["tiles"]) DemoHost.canvas_settings).2
  = DemoHost.canvas_settings.
Proof.
  apply (renderedImage_restores 256 256 ([10; 10; 20; 20]%Z, 30%Z) true
           (Some ["tiles"]) DemoHost.canvas_settings).
  vm_compute. reflexivity.
Defined.

(** What the job saw in that run: the requested size, extent and rotation,
    the tiles layer alone, a transparent background, and a synchronous
    run because of the plugin layer. *)
Example renderedImage_job_input :
  (ImageManager.renderedImage 256 256 ([10; 10; 20; 20]%Z, 30%Z) true
     (Some ["tiles"]) DemoHost.canvas_settings).1
  = (true,
     ImageManager.MapSettings (256, 256)%Z [10; 10; 20; 20]%Z 30%Z
       [("tiles", true)] 0%Z,
     (256, 256)%Z).
Proof. vm_compute. reflexivity. Qed.

(** The claim as first stated fails for the layer set: it is restored
    from the ids, so a layer of the settings that the lookup does not
    find is gone after the call. *)
Lemma renderedImage_drops_unknown_layer :
  ImageManager.layers DemoHost.preview_settings
  = [("dem", false); ("preview", false)]
  ∧ ImageManager.layers
      (ImageManager.renderedImage 256 256 ([10; 10; 20; 20]%Z, 30%Z) false None
         DemoHost.preview_settings).2
    = [("dem", false)].
Proof. split; vm_compute; reflexivity. Qed.
(** ** calculateDEMSize *)

(** *** Rounding to a double *)

Section Binary64_facts.
Import Binary64.
Local Open Scope Z_scope.


















End Binary64_facts.

(** *** The function *)

Section DEMSize_facts.
Import Binary64 DEMSize.
Local Open Scope Z_scope.









(** C3, at the input where the code departs from it: a width of 17 with
    roughening 16 is not a multiple, and comes out as 16, the multiple
    below, since [17 / 16 + 0.9] is [1.9625]. *)
Theorem roughening_rounds_down :
  roughen 17 16 = Returned 16
  ∧ calculateDEMSize (17, 17) 1 16 = Returned (16 + 1, 16 + 1).
Proof. split; vm_compute; reflexivity. Qed.

(** The rounding agrees with the primitive floats: the literal [0.9], a
    quotient, a square root and a product. *)
Example round_agrees :
  DEMSizeBinary64.spec (round 9 10) = Prim2SF 0x1.ccccccccccccdp-1%float
  ∧ DEMSizeBinary64.spec (round 10000 42250000)
    = Prim2SF (PrimFloat.div 10000 42250000)
  ∧ DEMSizeBinary64.spec (sqrt (round 10000 42250000))
    = Prim2SF (PrimFloat.sqrt (PrimFloat.div 10000 42250000))
  ∧ DEMSizeBinary64.spec <$> mul (round 65 1) (sqrt (round 10000 42250000))
    = Some (Prim2SF (PrimFloat.mul 65
                       (PrimFloat.sqrt (PrimFloat.div 10000 42250000)))).
Proof. repeat split; vm_compute; reflexivity. Qed.

(** At these inputs the transcription onto the primitive floats returns
    what the model returns; at the last two the exact product is an
    integer, 1 and 240, and the rounded one falls just short of it. *)
Example binary64_agrees :
  Returned (DEMSizeBinary64.calculateDEMSize (20000, 1) 1 0)
  = calculateDEMSize (20000, 1) 1 0
  ∧ Returned (DEMSizeBinary64.calculateDEMSize (5, 5) 1 4)
    = calculateDEMSize (5, 5) 1 4
  ∧ Returned (DEMSizeBinary64.calculateDEMSize (17, 17) 1 16)
    = calculateDEMSize (17, 17) 1 16
  ∧ Returned (DEMSizeBinary64.calculateDEMSize (800, 600) 2 16)
    = calculateDEMSize (800, 600) 2 16
  ∧ Returned (DEMSizeBinary64.calculateDEMSize (65, 650000) 1 0)
    = calculateDEMSize (65, 650000) 1 0
  ∧ Returned (DEMSizeBinary64.calculateDEMSize (3744, 650) 1 0)
    = calculateDEMSize (3744, 650) 1 0.
Proof. repeat split; vm_compute; reflexivity. Qed.

(** Ordinary runs, and the errors. *)
Example calculateDEMSize_runs :
  calculateDEMSize (800, 600) 2 0 = Returned (231, 174)
  ∧ calculateDEMSize (800, 600) 2 16 = Returned (241, 177)
  ∧ calculateDEMSize (400, 400) 1 0 = Returned (101, 101)
  ∧ calculateDEMSize (64, 64) 1 16 = Returned (65, 65)
  ∧ calculateDEMSize (65, 650000) 1 0 = Returned (1, 10001)
  ∧ calculateDEMSize (3744, 650) 1 0 = Returned (240, 42)
  ∧ calculateDEMSize (0, 600) 2 0 = Raised ZeroDivisionError
  ∧ calculateDEMSize (-800, 600) 2 0 = Raised TypeError.
Proof. repeat split; vm_compute; reflexivity. Qed.
End DEMSize_facts.

(** ** FlatDEMProvider *)

Section FlatDEMProvider_facts.
Import FlatDEMProvider.

Lemma list_mul_length {A} (l : list A) (n : Z) :
  length (list_mul l n) = (Z.to_nat n * length l)%nat.
Proof.
  unfold list_mul. induction (Z.to_nat n) as [|k IH]; simpl; [done|].
  by rewrite length_app, IH.
Qed.

Lemma list_mul_Forall {A} (P : A → Prop) (l : list A) (n : Z) :
  Forall P l → Forall P (list_mul l n).
Proof.
  intros Hl. unfold list_mul. induction (Z.to_nat n) as [|k IH]; simpl.
  - constructor.
  - by apply Forall_app.
Qed.

(** The samples of a flat provider: [width * height] of them, all the
    value. *)
Lemma read_flat {V Extent} (v : V) (width height : Z) (extent : Extent) :
  (0 < width)%Z → (0 < height)%Z →
  length (read (Provider v) width height extent) = Z.to_nat (width * height)
  ∧ Forall (λ sample, sample = v) (read (Provider v) width height extent).
Proof.
  intros Hw Hh. unfold read. simpl. split.
  - rewrite !list_mul_length. simpl. lia.
  - apply list_mul_Forall, list_mul_Forall. by constructor.
Qed.
End FlatDEMProvider_facts.

(** ** MapTo3D *)

Section MapTo3D_facts.
Import RotatedRect MapTo3D.
Local Open Scope R_scope.

Lemma div_returns x y : y ≠ 0 → div x y = Returned (x / y).
Proof. intros Hy. unfold div. by destruct (Req_dec_T y 0). Qed.

Lemma div_raises x : div x 0 = Raised ZeroDivisionError.
Proof. unfold div. by destruct (Req_dec_T 0 0). Qed.

(** Construction succeeds when the canvas and the extent have a width. *)
Lemma init_returns ms planeWidth verticalExaggeration verticalShift :
  IZR (ms_outputSize ms).1 ≠ 0 → width (ms_mapExtent ms) ≠ 0 →
  init ms planeWidth verticalExaggeration verticalShift
  = Returned (MapTo3D (ms_rotation ms) (ms_mapExtent ms) planeWidth
      (planeWidth * IZR (ms_outputSize ms).2 / IZR (ms_outputSize ms).1)
      verticalExaggeration verticalShift
      (planeWidth / width (ms_mapExtent ms))
      (planeWidth / width (ms_mapExtent ms) * verticalExaggeration)).
Proof.
  intros Hc He. unfold init. by rewrite !div_returns.
Qed.

(** What a constructed transform holds. *)
Lemma init_inv ms planeWidth verticalExaggeration verticalShift m :
  init ms planeWidth verticalExaggeration verticalShift = Returned m →
  IZR (ms_outputSize ms).1 ≠ 0 ∧ width (ms_mapExtent ms) ≠ 0
  ∧ m = MapTo3D (ms_rotation ms) (ms_mapExtent ms) planeWidth
      (planeWidth * IZR (ms_outputSize ms).2 / IZR (ms_outputSize ms).1)
      verticalExaggeration verticalShift
      (planeWidth / width (ms_mapExtent ms))
      (planeWidth / width (ms_mapExtent ms) * verticalExaggeration).
Proof.
  unfold init, div.
  destruct (Req_dec_T (IZR (ms_outputSize ms).1) 0) as [|Hc]; [done|].
  destruct (Req_dec_T (width (ms_mapExtent ms)) 0) as [|He]; [done|].
  by intros [= <-].
Qed.

(** Turning a point and turning it back by the same angle. *)
Lemma rotatePoint_back degrees cx cy x y :
  rotatePoint (- degrees) cx cy
    (rotatePoint degrees cx cy x y).1 (rotatePoint degrees cx cy x y).2
  = (x, y).
Proof.
  unfold rotatePoint. simpl.
  replace (- degrees * PI / 180) with (- (degrees * PI / 180)) by lra.
  set (theta := degrees * PI / 180).
  rewrite cos_neg, sin_neg.
  pose proof (sin2_cos2 theta) as Hsc. unfold Rsqr in Hsc.
  f_equal.
  - transitivity (cx + (x - cx) * (sin theta * sin theta + cos theta * cos theta));
      [ring|rewrite Hsc; ring].
  - transitivity (cy + (y - cy) * (sin theta * sin theta + cos theta * cos theta));
      [ring|rewrite Hsc; ring].
Qed.

(** A corner of the extent is normalised to a corner of the unit square. *)
Lemma normalizePoint_vertex r c :
  width r ≠ 0 → height r ≠ 0 →
  normalizePoint r (vertex r c).1 (vertex r c).2
  = Returned ((side_x c + 1) / 2, (side_y c + 1) / 2).
Proof.
  intros Hw Hh. unfold normalizePoint, vertex.
  rewrite rotatePoint_back.
  destruct (Req_dec_T (width r) 0) as [|_]; [done|].
  destruct (Req_dec_T (height r) 0) as [|_]; [done|].
  unfold xMinimum, yMinimum. do 2 f_equal; field; done.
Qed.

(** C4. For a transform constructed over an extent of nonzero area,
    whatever the rotation and the plane width: the plane height is the
    plane width times the canvas height over the canvas width, and each
    corner of the source extent is taken to the corresponding corner of
    the rectangle of that width and height centred at the origin (the
    third coordinate being the shifted height times [multiplierZ]). *)
Theorem transform_corners ms planeWidth verticalExaggeration verticalShift m
    (c : corner) (z : R) :
  init ms planeWidth verticalExaggeration verticalShift = Returned m →
  width (ms_mapExtent ms) * height (ms_mapExtent ms) ≠ 0 →
  planeHeight m
  = planeWidth * IZR (ms_outputSize ms).2 / IZR (ms_outputSize ms).1
  ∧ transform m (vertex (ms_mapExtent ms) c).1 (vertex (ms_mapExtent ms) c).2 z
    = Returned (Pt (side_x c * planeWidth / 2)
                   (side_y c * planeHeight m / 2)
                   ((z + verticalShift) * multiplierZ m)).
Proof.
  intros Hm Harea.
  apply init_inv in Hm as (Hc & Hw & ->).
  assert (height (ms_mapExtent ms) ≠ 0) as Hh by (intros Hz; apply Harea; rewrite Hz; ring).
  split; [done|]. unfold transform. cbn [mapExtent].
  rewrite normalizePoint_vertex by done.
  unfold transform_z. cbn [MapTo3D.planeWidth MapTo3D.planeHeight MapTo3D.verticalShift
       MapTo3D.multiplierZ].
  f_equal. f_equal; replace 0.5 with (1 / 2) by lra; field; done.
Qed.

(** An instance: an 800 by 600 canvas over a 200 by 150 extent turned by
    30 degrees, and its upper right corner. *)
Lemma transform_corners_witness :
  let ext := Rect 1000 2000 200 150 30 in
  let m := MapTo3D 30 ext 100 (100 * 600 / 800) 2 1 (100 / 200) (100 / 200 * 2) in
  planeHeight m = 100 * 600 / 800
  ∧ transform m (vertex ext UpperRight).1 (vertex ext UpperRight).2 0
    = Returned (Pt (side_x UpperRight * 100 / 2)
                   (side_y UpperRight * planeHeight m / 2)
                   ((0 + 1) * multiplierZ m)).
Proof.
  intros ext m.
  apply (transform_corners (Settings 30 ext (800, 600)%Z) 100 2 1 m UpperRight 0).
  - apply init_returns; simpl; lra.
  - simpl. lra.
Defined.

(** C6, as the code has it. Construction raises the division error
    exactly when the canvas width or the extent's width is zero; the
    extent's height is not looked at. With both widths nonzero it returns
    a transform whose multiplier is the plane width over the extent's
    width, whose vertical multiplier is that times the exaggeration, and
    whose plane height keeps the canvas's aspect ratio. *)
Theorem init_zero_width ms planeWidth verticalExaggeration verticalShift :
  (init ms planeWidth verticalExaggeration verticalShift
   = Raised ZeroDivisionError
   ↔ (ms_outputSize ms).1 = 0%Z ∨ width (ms_mapExtent ms) = 0)
  ∧ ((ms_outputSize ms).1 ≠ 0%Z → width (ms_mapExtent ms) ≠ 0 →
     ∃ m, init ms planeWidth verticalExaggeration verticalShift = Returned m
       ∧ multiplier m * width (ms_mapExtent ms) = planeWidth
       ∧ multiplierZ m = multiplier m * verticalExaggeration
       ∧ planeHeight m * IZR (ms_outputSize ms).1
         = planeWidth * IZR (ms_outputSize ms).2).
Proof.
  split.
  - unfold init, div.
    destruct (Req_dec_T (IZR (ms_outputSize ms).1) 0) as [Hc|Hc].
    + split; [|done]. intros _. left. by apply eq_IZR.
    + destruct (Req_dec_T (width (ms_mapExtent ms)) 0) as [He|He].
      * split; [|done]. intros _. by right.
      * split; [done|]. intros [Hz|Hz]; [|done].
        exfalso. apply Hc. by rewrite Hz.
  - intros Hc He.
    assert (IZR (ms_outputSize ms).1 ≠ 0) as Hc' by (by apply not_0_IZR).
    eexists. split; [by apply init_returns|]. simpl.
    split_and!; [field; done|done|field; done].
Qed.

(** The claim as first stated fails: over a canvas 800 wide and 0 high
    the extent has width 200 and height 0, so no area, and a transform
    over it is constructed all the same. *)
Lemma init_accepts_zero_height :
  width (Rect 0 0 200 0 0) * height (Rect 0 0 200 0 0) = 0
  ∧ init (Settings 0 (Rect 0 0 200 0 0) (800, 0)%Z) 100 1 0
    = Returned (MapTo3D 0 (Rect 0 0 200 0 0) 100 (100 * 0 / 800) 1 0
                  (100 / 200) (100 / 200 * 1)).
Proof.
  split; [simpl; ring|]. apply init_returns; simpl; lra.
Qed.

(** C9. A flat provider's [read] over a grid of positive width and
    height returns exactly [width * height] samples, each the provider's
    value, and [readValue] returns that value at every point; so with the
    value 10, under a transform constructed with exaggeration 2 and shift
    1, every sample is taken to [(10 + 1)] times the vertical multiplier,
    which is twice the horizontal one. *)
Theorem flat_provider_constant {Extent} (v : R) (w h : Z) (extent : Extent) :
  (0 < w)%Z → (0 < h)%Z →
  length (FlatDEMProvider.read (FlatDEMProvider.Provider v) w h extent)
  = Z.to_nat (w * h)
  ∧ Forall (λ sample, sample = v)
      (FlatDEMProvider.read (FlatDEMProvider.Provider v) w h extent)
  ∧ (∀ x y : R, FlatDEMProvider.readValue (FlatDEMProvider.Provider v) x y = v)
  ∧ (∀ ms planeWidth m,
       init ms planeWidth 2 1 = Returned m →
       multiplierZ m = multiplier m * 2
       ∧ Forall (λ sample, transform_z m sample = (10 + 1) * multiplierZ m)
           (FlatDEMProvider.read (FlatDEMProvider.Provider 10) w h extent)).
Proof.
  intros Hw Hh.
  destruct (read_flat v w h extent Hw Hh) as [Hlen Hall].
  split_and!; [done..|].
  intros ms planeWidth m Hm. apply init_inv in Hm as (_ & _ & ->). simpl.
  split; [done|].
  destruct (read_flat 10 w h extent Hw Hh) as [_ Hten].
  eapply Forall_impl; [exact Hten|]. intros sample ->. reflexivity.
Qed.

(** An instance: a 3 by 2 grid of the value 10. *)
Lemma flat_provider_constant_witness :
  length (FlatDEMProvider.read (FlatDEMProvider.Provider 10) 3 2 ())
  = Z.to_nat (3 * 2)
  ∧ Forall (λ sample, sample = 10)
      (FlatDEMProvider.read (FlatDEMProvider.Provider 10) 3 2 ())
  ∧ (∀ x y : R, FlatDEMProvider.readValue (FlatDEMProvider.Provider 10) x y = 10)
  ∧ (∀ ms planeWidth m,
       init ms planeWidth 2 1 = Returned m →
       multiplierZ m = multiplier m * 2
       ∧ Forall (λ sample, transform_z m sample = (10 + 1) * multiplierZ m)
           (FlatDEMProvider.read (FlatDEMProvider.Provider 10) 3 2 ())).
Proof. apply (flat_provider_constant 10 3 2 ()); lia. Defined.
End MapTo3D_facts.

(** ** Saving and loading the settings *)

Section Dialog_facts.
Import Dialog.
Local Open Scope Z_scope.

(** Decoding the UTF-8 of a code point gives the code point back. *)
Lemma decode_utf8_char c b rest :
  encode_utf8_char c = Some b →
  decode_utf8 (b ++ rest) = (c ::.) <$> decode_utf8 rest.
Proof.
  unfold encode_utf8_char.
  repeat case_decide; intros [= <-]; cbn [app decode_utf8 continuation];
    unfold continuation;
    repeat (case_decide; try (exfalso; Z.div_mod_to_equations; lia));
    cbn [mbind option_bind];
    repeat (case_decide; try (exfalso; Z.div_mod_to_equations; lia));
    try (repeat f_equal; Z.div_mod_to_equations; lia).
Qed.

(** Reading a file as UTF-8 gives back the text written to it as UTF-8. *)
Lemma decode_encode_utf8 t data :
  encode_utf8 t = Some data → decode UTF_8 data = Some t.
Proof.
  simpl. revert data. induction t as [|c t IH]; intros data; simpl.
  - by intros [= <-].
  - destruct (encode_utf8_char c) as [b|] eqn:Hc; [|done]. simpl.
    destruct (encode_utf8 t) as [bs|]; [|done]. simpl. intros [= <-].
    rewrite (decode_utf8_char _ _ _ Hc), (IH bs eq_refl). reflexivity.
Qed.

(** What [loadSettings] makes of a file [saveSettings] wrote: the written
    text, read back through the platform's preferred encoding and
    parsed. *)
Lemma load_after_save settings filename p p' :
  saveSettings settings filename p = inr p' →
  ∃ data, encode_utf8 (dumps settings) = Some data
    ∧ loadSettings filename p'
      = match decode (preferred_encoding p) data with
        | None => inl UnicodeDecodeError
        | Some t => match loads t with
                    | None => inl JSONDecodeError
                    | Some loaded => inr loaded
                    end
        end.
Proof.
  unfold saveSettings, loadSettings.
  destruct (encode_utf8 (dumps settings)) as [data|]; [|done].
  intros [= <-]. exists data. split; [done|]. simpl.
  by rewrite lookup_insert_eq.
Qed.

(** Where the preferred encoding is UTF-8, loading a saved file parses
    the very text [json.dump] produced. *)
Lemma load_after_save_utf8 settings filename p p' :
  preferred_encoding p = UTF_8 →
  saveSettings settings filename p = inr p' →
  loadSettings filename p'
  = match loads (dumps settings) with
    | None => inl JSONDecodeError
    | Some loaded => inr loaded
    end.
Proof.
  intros He Hs. destruct (load_after_save _ _ _ _ Hs) as (data & Hd & ->).
  by rewrite He, (decode_encode_utf8 _ _ Hd).
Qed.

(** ASCII text is its own UTF-8, and every encoding reads it back as it
    is. *)
Lemma encode_ascii t :
  Forall (λ c, 0 ≤ c < 128) t → encode_utf8 t = Some t.
Proof.
  induction 1 as [|c t Hc _ IH]; simpl; [done|].
  unfold encode_utf8_char.
  rewrite decide_False by lia. rewrite decide_True by lia. simpl.
  by rewrite IH.
Qed.

Lemma decode_ascii e bs :
  Forall (λ c, 0 ≤ c < 128) bs → decode e bs = Some bs.
Proof.
  intros Hbs. destruct e; simpl.
  - induction Hbs as [|b bs Hb _ IH]; simpl; [done|].
    rewrite decide_True by lia. by rewrite IH.
  - induction Hbs as [|b bs Hb _ IH]; simpl; [done|]. by rewrite IH.
  - induction Hbs as [|b bs Hb _ IH]; simpl; [done|].
    rewrite decide_False by lia. simpl. by rewrite IH.
Qed.

(** So settings whose text is all ASCII load as they would under UTF-8,
    whatever the platform prefers: the two calls of [open] differ only on
    the other characters. *)
Lemma load_after_save_ascii settings filename p p' :
  Forall (λ c, 0 ≤ c < 128) (dumps settings) →
  saveSettings settings filename p = inr p' →
  loadSettings filename p'
  = match loads (dumps settings) with
    | None => inl JSONDecodeError
    | Some loaded => inr loaded
    end.
Proof.
  intros Ha Hs. destruct (load_after_save _ _ _ _ Hs) as (data & Hd & ->).
  rewrite (encode_ascii _ Ha) in Hd. injection Hd as <-.
  by rewrite (decode_ascii _ _ Ha).
Qed.

(** Numbers: an integer has no leading zero. *)
Example loads_numbers :
  loads (lit "[0, -7, 10]") = Some (JList [JInt 0; JInt (-7); JInt 10])
  ∧ loads (lit "01") = None
  ∧ loads (lit "[-012]") = None.
Proof. repeat split; vm_compute; reflexivity. Qed.

(** The text written for the example settings: keys sorted, two spaces
    per level, the accented letter as it is. *)
Example dumps_example :
  dumps example_settings
  = lit "{" ++ [10]
    ++ lit "  " ++ [34] ++ lit "DEM" ++ [34] ++ lit ": {" ++ [10]
    ++ lit "    " ++ [34] ++ lit "checkBox_Sides" ++ [34] ++ lit ": true," ++ [10]
    ++ lit "    " ++ [34] ++ lit "spinBox_Roughening" ++ [34] ++ lit ": 16" ++ [10]
    ++ lit "  }," ++ [10]
    ++ lit "  " ++ [34] ++ lit "OutputFilename" ++ [34] ++ lit ": "
       ++ [34] ++ lit "C:/caf" ++ [233] ++ lit "/scene.html" ++ [34] ++ lit "," ++ [10]
    ++ lit "  " ++ [34] ++ lit "PluginVersion" ++ [34] ++ lit ": "
       ++ [34] ++ lit "2.0" ++ [34] ++ lit "," ++ [10]
    ++ lit "  " ++ [34] ++ lit "Template" ++ [34] ++ lit ": "
       ++ [34] ++ lit "3DViewer.html" ++ [34] ++ [10]
    ++ lit "}".
Proof. vm_compute. reflexivity. Qed.

(** On a platform whose preferred encoding is UTF-8 the settings come
    back with the same keys and values, each dict in key order. *)
Example round_trip_utf8 :
  save_then_load example_settings "scene.qto3settings" (Platform ∅ UTF_8)
  = inr (sort_keys example_settings).
Proof. vm_compute. reflexivity. Qed.

(** C5, at the input where the code departs from it. [saveSettings]
    writes the file as UTF-8; [loadSettings] opens it with no encoding
    named, so where the platform prefers Windows-1252 the two bytes of the
    accented letter are read as two letters, and the output file name
    that comes back is not the one that was saved. *)
Theorem round_trip_fails_on_cp1252 :
  save_then_load example_settings "scene.qto3settings" (Platform ∅ CP1252)
  = inr example_settings_misread
  ∧ get (lit "OutputFilename") example_settings
    = Some (JStr (lit "C:/caf" ++ [233] ++ lit "/scene.html"))
  ∧ get (lit "OutputFilename") example_settings_misread
    = Some (JStr (lit "C:/caf" ++ [195; 169] ++ lit "/scene.html"))
  ∧ sort_keys example_settings_misread ≠ sort_keys example_settings.
Proof.
  split_and!; [vm_compute; reflexivity..|].
  vm_compute. intros [=].
Qed.

(** The same happens under Latin-1. *)
Example round_trip_fails_on_latin1 :
  save_then_load example_settings "scene.qto3settings" (Platform ∅ Latin_1)
  = inr example_settings_misread.
Proof. vm_compute. reflexivity. Qed.

(** A byte Windows-1252 leaves unassigned makes the load raise: U+00C1,
    a capital A with an acute accent, is written as the bytes C3 81. *)
Example load_raises_on_cp1252 :
  save_then_load (JDict [(lit "OutputFilename", JStr [193])]) "a.qto3settings"
    (Platform ∅ CP1252)
  = inl UnicodeDecodeError.
Proof. vm_compute. reflexivity. Qed.
End Dialog_facts.

(** * Further properties *)

(** ** DataManager: what an index stands for *)

Section DataManager_indices.
Import DataManager.
Context {A : Type} `{EqDecision A}.
Implicit Types (l : list A) (d : A).

(** X1. The list is append-only: a call leaves every entry where it was, and
    the descriptor asked for sits at the index returned, which is a
    position of the list after the call. *)
Theorem _index_lookup l d :
  ∃ i l1,
    _index d l = Some (i, l1)
    ∧ l1 !! i = Some d
    ∧ i < count l1
    ∧ ∀ j x, l !! j = Some x → l1 !! j = Some x.
Proof.
  destruct (_index_total l d) as (i & k & Hi & Hl).
  exists i, (l ++ k). apply list_index_Some in Hl as [Hl _].
  split_and!; [done..| |].
  - unfold count. by eapply lookup_lt_Some.
  - intros j x Hj. by apply lookup_app_l_Some.
Qed.

(** X2. Indices tell descriptors apart: if a later call, after any calls in
    between, returns the index an earlier call returned, the two
    descriptors are equal. *)
Theorem _index_injective l d1 d2 ds i l1 l2 l3 :
  _index d1 l = Some (i, l1) →
  index_all ds l1 = Some l2 →
  _index d2 l2 = Some (i, l3) →
  d1 = d2.
Proof.
  intros H1 Hds H2.
  destruct (_index_total l d1) as (i' & k1 & H1' & Hd1).
  assert (i = i' ∧ l1 = l ++ k1) as [<- Hl1] by (split; congruence).
  rewrite <- Hl1 in Hd1. clear H1' Hl1.
  apply list_index_Some in Hd1 as [Hd1 _].
  destruct (index_all_grows ds l1) as [k Hk].
  rewrite Hds in Hk. injection Hk as ->.
  destruct (_index_total (l1 ++ k) d2) as (i' & k' & H2' & Hd2).
  rewrite H2 in H2'. injection H2' as <- ->.
  apply list_index_Some in Hd2 as [Hd2 _].
  rewrite <- app_assoc in Hd2.
  rewrite (lookup_app_l_Some _ _ _ _ Hd1) in Hd2. by injection Hd2.
Qed.

(** The entries after a call: those before it and the descriptor. *)
Lemma _index_elements l d i l1 :
  _index d l = Some (i, l1) → ∀ x, x ∈ l1 ↔ x ∈ l ∨ x = d.
Proof.
  unfold _index. case_decide as Hd.
  - destruct (list_index l d); simpl; [|done]. intros [= <- <-].
    intros x. split; [by left|]. by intros [?| ->].
  - intros [= <- <-].
    intros x. rewrite elem_of_app, list_elem_of_singleton. done.
Qed.

(** A list with no repeated entry keeps that through a call. *)
Lemma _index_NoDup l d i l1 :
  NoDup l → _index d l = Some (i, l1) →
  NoDup l1 ∧ ∀ x, x ∈ l1 ↔ x ∈ l ∨ x = d.
Proof.
  intros Hnd Hi. split; [|by eapply _index_elements].
  revert Hi. unfold _index. case_decide as Hd.
  - destruct (list_index l d); simpl; [|done]. by intros [= <- <-].
  - intros [= <- <-].
    apply NoDup_app. split_and!; [done| |apply NoDup_singleton].
    intros x Hx ->%list_elem_of_singleton. done.
Qed.

(** X3. A manager that starts empty never holds a descriptor twice, and
    holds exactly the descriptors that were asked for; so its count is the
    number of distinct descriptors requested. *)
Theorem index_all_distinct (ds : list A) :
  ∃ l, index_all ds init = Some l
    ∧ NoDup l
    ∧ (∀ d, d ∈ l ↔ d ∈ ds)
    ∧ count l ≤ length ds.
Proof.
  assert (∀ ds l0, NoDup l0 → ∃ l, index_all ds l0 = Some l ∧ NoDup l
            ∧ (∀ d, d ∈ l ↔ d ∈ l0 ∨ d ∈ ds)
            ∧ length l ≤ length l0 + length ds) as Hgen.
  { clear ds. induction ds as [|d ds IH]; intros l0 Hnd; simpl.
    - exists l0. split_and!; [done..| |lia].
      intros d. rewrite elem_of_nil. tauto.
    - destruct (_index_total l0 d) as (i & k & Hi & _). rewrite Hi. simpl.
      destruct (_index_NoDup l0 d i _ Hnd Hi) as [Hnd' Hel].
      destruct (IH _ Hnd') as (l & Hl & Hndl & Hell & Hlen).
      exists l. split_and!; [done..| |].
      + intros x. rewrite Hell, Hel, elem_of_cons. tauto.
      + assert (length (l0 ++ k) ≤ S (length l0)); [|lia].
        revert Hi. unfold _index. case_decide.
        * destruct (list_index l0 d); simpl; [|done].
          intros [= _ Hk]. rewrite <- Hk. lia.
        * intros [= _ Hk]. rewrite <- Hk, length_app. simpl. lia. }
  destruct (Hgen ds [] (NoDup_nil_2)) as (l & Hl & Hnd & Hel & Hlen).
  exists l. split_and!; [done..| |simpl in Hlen; done].
  intros d. rewrite Hel, elem_of_nil. tauto.
Qed.
End DataManager_indices.

(** An instance: two image paths in a manager that holds one already. *)
Lemma _index_injective_witness : "a.png" = "a.png".
Proof.
  apply (_index_injective (A:=string) ["b.png"] "a.png" "a.png" ["c.png"] 1
           ["b.png"; "a.png"] ["b.png"; "a.png"; "c.png"]
           ["b.png"; "a.png"; "c.png"]); reflexivity.
Defined.

(** ** ModelManager: the loader script and the escaped text *)

Section ModelFiles_facts.
Import DataManager ModelManager ModelFiles.

(** [modelIndex] always returns; the manager lists what it listed and the
    model asked for, and remembers COLLADA once it has seen it. *)
Lemma modelIndex_spec path model_type m :
  ∃ i m', modelIndex path model_type m = Some (i, m')
    ∧ (∀ x, x ∈ _list m' ↔ x ∈ _list m ∨ x = (model_type, path))
    ∧ _collada m' = (if decide (model_type = "COLLADA") then true else _collada m).
Proof.
  unfold modelIndex. cbv zeta.
  destruct (_index_total (A:=string * string) (_list m) (model_type, path))
    as (i & k & Hi & _).
  rewrite Hi. simpl. eexists _, _. split; [done|]. simpl.
  split; [|done]. by eapply (_index_elements (A:=string * string)).
Qed.

(** The flag says whether a COLLADA model is listed, and calls keep it
    so. *)
Lemma modelIndex_all_collada requests m :
  (_collada m = true ↔ ∃ path, ("COLLADA", path) ∈ _list m) →
  ∃ m', modelIndex_all requests m = Some m'
    ∧ (_collada m' = true ↔ ∃ path, ("COLLADA", path) ∈ _list m')
    ∧ (∀ x, x ∈ _list m' ↔ x ∈ _list m ∨ (x.2, x.1) ∈ requests).
Proof.
  revert m. induction requests as [|[path model_type] rest IH]; intros m Hinv; simpl.
  - exists m. split_and!; [done..|]. intros x. rewrite elem_of_nil. tauto.
  - destruct (modelIndex_spec path model_type m) as (i & m1 & -> & Hel & Hc).
    simpl. destruct (IH m1) as (m' & Hm' & Hinv' & Hel').
    + rewrite Hc. case_decide as Ht.
      * subst model_type. split; [|done]. intros _. exists path.
        apply Hel. by right.
      * rewrite Hinv. split; intros [p Hp]; exists p; [apply Hel; by left|].
        apply Hel in Hp as [Hp|Hp]; [done|]. congruence.
    + exists m'. split_and!; [done..|].
      intros [t p]. rewrite Hel', Hel, elem_of_cons. simpl.
      split; [intros [[?|[= -> ->]]|?]; auto|intros [?|[[= -> ->]|?]]; auto].
Qed.

(** X4. The loader script for COLLADA is bundled exactly when a COLLADA model
    has been asked for: after any calls of [modelIndex] on a new manager,
    [scripts] and [filesToCopy] name the loader if one of the calls had the
    type COLLADA, and are empty otherwise. *)
Theorem collada_loader_bundled (requests : list (string * string)) :
  ∃ m, modelIndex_all requests init = Some m
    ∧ ((∃ path, (path, "COLLADA") ∈ requests) →
       scripts m = ["threejs/loaders/ColladaLoader.js"]
       ∧ filesToCopy m
         = [CopyEntry ["js/threejs/loaders/ColladaLoader.js"] "threejs/loaders"])
    ∧ ((∀ path, ¬ (path, "COLLADA") ∈ requests) →
       scripts m = [] ∧ filesToCopy m = []).
Proof.
  destruct (modelIndex_all_collada requests init) as (m & Hm & Hinv & Hel).
  { simpl. split; [done|]. intros [p Hp]. by apply elem_of_nil in Hp. }
  exists m. split; [done|]. unfold scripts, filesToCopy. split.
  - intros [path Hp].
    assert (_collada m = true) as ->; [|done].
    apply Hinv. exists path. apply Hel. by right.
  - intros Hnone. destruct (_collada m) eqn:Hc; [|done]. exfalso.
    destruct (proj1 Hinv eq_refl) as [p Hp].
    apply Hel in Hp as [Hp|Hp]; [by apply elem_of_nil in Hp|].
    by apply (Hnone p).
Qed.

Lemma append_cons c (a b : string) : String c a +:+ b = String c (a +:+ b).
Proof. reflexivity. Qed.

Lemma append_assoc (a b c : string) : (a +:+ b) +:+ c = a +:+ (b +:+ c).
Proof.
  induction a as [|x a IH]; [done|]. by rewrite !append_cons, IH.
Qed.

(** Each replacement goes through a text piece by piece. *)
Lemma replace_app old new a b :
  replace old new (a +:+ b) = replace old new a +:+ replace old new b.
Proof.
  induction a as [|c a IH]; [done|].
  rewrite append_cons. simpl. case_decide; rewrite IH; [|done].
  by rewrite append_assoc.
Qed.

Lemma escape_app a b : escape (a +:+ b) = escape a +:+ escape b.
Proof. unfold escape. by rewrite !replace_app. Qed.

(** The escaped form of one character: the five special ones get a
    backslash and a letter, any other is kept. *)
Lemma escape_char c :
  escape (String c "")
  = if decide (c = ascii_of_nat 92) then backslash +:+ backslash
    else if decide (c = "'"%char) then backslash +:+ "'"
    else if decide (c = tab) then backslash +:+ "t"
    else if decide (c = cr) then backslash +:+ "r"
    else if decide (c = lf) then backslash +:+ "n"
    else String c "".
Proof.
  repeat case_decide; subst; try reflexivity.
  unfold escape. simpl.
  repeat (rewrite decide_False by done; simpl). reflexivity.
Qed.

Lemma escape_cons c s : escape (String c s) = escape (String c "") +:+ escape s.
Proof. by rewrite <- escape_app. Qed.

(** Reading one escape, or one ordinary character. *)
Lemma unescape_pair e c' rest :
  (e = ascii_of_nat 92 ∧ c' = e) ∨ (e = "'"%char ∧ c' = e)
  ∨ (e = "t"%char ∧ c' = tab) ∨ (e = "r"%char ∧ c' = cr)
  ∨ (e = "n"%char ∧ c' = lf) →
  unescape (String (ascii_of_nat 92) (String e rest)) = String c' <$> unescape rest.
Proof.
  intros He. cbn [unescape]. rewrite decide_True by done.
  destruct He as [[-> ->]|[[-> ->]|[[-> ->]|[[-> ->]|[-> ->]]]]];
    repeat (first [rewrite decide_True by done|rewrite decide_False by done]);
    reflexivity.
Qed.

Lemma unescape_plain c rest :
  c ≠ ascii_of_nat 92 →
  unescape (String c rest) = String c <$> unescape rest.
Proof. intros Hc. cbn [unescape]. by rewrite decide_False. Qed.

(** X5. No text is lost: reading the escapes back gives the file's text, so
    two model files with different texts are embedded differently. *)
Theorem unescape_escape data : unescape (escape data) = Some data.
Proof.
  induction data as [|c data IH]; [done|].
  rewrite escape_cons, escape_char.
  repeat case_decide; subst.
  - change (unescape (String (ascii_of_nat 92)
              (String (ascii_of_nat 92) (escape data))) = Some (String (ascii_of_nat 92) data)).
    rewrite (unescape_pair _ (ascii_of_nat 92)), IH by auto. done.
  - change (unescape (String (ascii_of_nat 92)
              (String "'"%char (escape data))) = Some (String "'"%char data)).
    rewrite (unescape_pair _ "'"%char), IH by auto. done.
  - change (unescape (String (ascii_of_nat 92)
              (String "t"%char (escape data))) = Some (String tab data)).
    rewrite (unescape_pair _ tab), IH by auto 6. done.
  - change (unescape (String (ascii_of_nat 92)
              (String "r"%char (escape data))) = Some (String cr data)).
    rewrite (unescape_pair _ cr), IH by auto 6. done.
  - change (unescape (String (ascii_of_nat 92)
              (String "n"%char (escape data))) = Some (String lf data)).
    rewrite (unescape_pair _ lf), IH by auto 6. done.
  - rewrite append_cons. change ("" +:+ escape data) with (escape data).
    rewrite unescape_plain, IH by done. done.
Qed.

(** X6. The escaped text has no tab, carriage return or line feed in it: the
    model stays on the line of its [project.models] assignment. *)
Theorem escape_one_line data :
  Forall (λ c, c ≠ tab ∧ c ≠ cr ∧ c ≠ lf) (list_ascii_of_string (escape data)).
Proof.
  induction data as [|c data IH]; [constructor|].
  rewrite escape_cons, escape_char.
  repeat case_decide; subst; unfold backslash;
    rewrite ?append_cons; change ("" +:+ escape data) with (escape data);
    cbn [list_ascii_of_string];
    repeat (constructor; [split_and!; done|]); done.
Qed.
End ModelFiles_facts.

(** ** calculateDEMSize: the grid it returns *)

Section DEMSize_more.
Import Binary64 DEMSize.
Local Open Scope Z_scope.

(** Whatever its sign, [roughen] gives a multiple of a nonzero
    [roughening]. *)
Lemma roughen_divide d roughening n :
  roughening ≠ 0 → roughen d roughening = Returned n → (roughening | n).
Proof.
  intros Hr. unfold roughen. case_decide as Hm.
  - destruct (truediv d roughening) as [q|]; [|done]. cbn [mbind outcome_bind].
    destruct (int _) as [t|]; [|done]. cbn [mbind outcome_bind].
    intros [= <-]. apply Z.divide_factor_r.
  - intros [= <-]. apply Z.mod_divide; [done|].
    destruct (Z.eq_dec (d mod roughening) 0); done.
Qed.

(** X7. With a roughening, the grid has a whole number of roughened cells
    each way: each dimension returned is a multiple of the roughening,
    plus one, also where the rounding went down. *)
Theorem calculateDEMSize_multiple canvasSize sizeLevel roughening w h :
  roughening ≠ 0 →
  calculateDEMSize canvasSize sizeLevel roughening = Returned (w, h) →
  (roughening | w - 1) ∧ (roughening | h - 1).
Proof.
  intros Hr. unfold calculateDEMSize. destruct canvasSize as [cw ch].
  destruct (truediv _ _) as [q|]; [|done]. cbn [mbind outcome_bind].
  destruct (pow_half q) as [s|]; [|done].
  destruct (if ltb_int s 1 then _ else _) as [[w0 h0]|]; [|done].
  cbn [mbind outcome_bind]. rewrite decide_True by done.
  destruct (roughen w0 roughening) as [w1|] eqn:Hw1; [|done].
  cbn [mbind outcome_bind].
  destruct (roughen h0 roughening) as [h1|] eqn:Hh1; [|done].
  cbn [mbind outcome_bind]. intros [= <- <-]. rewrite !Z.add_simpl_r.
  split; by eapply roughen_divide.
Qed.

(** An instance: 800 by 600 at level 2, roughening 16, gives 241 by 177. *)
Lemma calculateDEMSize_multiple_witness : (16 | 241 - 1) ∧ (16 | 177 - 1).
Proof.
  apply (calculateDEMSize_multiple (800, 600) 2 16 241 177); [lia|].
  vm_compute. reflexivity.
Defined.


End DEMSize_more.

(** ** FlatDEMProvider: any grid size *)

(** X10. [read] returns [width * height] samples, counting a width or height
    that is not positive as zero: such a grid is the empty list, with no
    error. Every sample is the provider's value. *)
Theorem read_flat_any_size {V Extent} (p : FlatDEMProvider.t V) (w h : Z)
    (extent : Extent) :
  length (FlatDEMProvider.read p w h extent) = (Z.to_nat w * Z.to_nat h)%nat
  ∧ Forall (λ sample, sample = FlatDEMProvider.value p)
      (FlatDEMProvider.read p w h extent)
  ∧ ((w ≤ 0)%Z ∨ (h ≤ 0)%Z → FlatDEMProvider.read p w h extent = []).
Proof.
  unfold FlatDEMProvider.read. split_and!.
  - rewrite !list_mul_length. simpl. lia.
  - apply list_mul_Forall, list_mul_Forall. by constructor.
  - intros Hz. apply length_zero_iff_nil. rewrite !list_mul_length. simpl.
    destruct Hz; [replace (Z.to_nat w) with 0%nat by lia
                 |replace (Z.to_nat h) with 0%nat by lia]; lia.
Qed.

(** ** MaterialManager.write: every material once, under its index *)

Section MaterialWrite_facts.
Import DataManager MaterialManager MaterialWrite.
Context {Extent : Type} `{EqDecision Extent}.
Variable pyobj2js : list (string * value (Extent:=Extent)) → string.
Local Abbreviation material := (MaterialManager.material Extent).
Local Abbreviation image := (ImageManager.image Extent).
Local Abbreviation state := (MaterialWrite.state (Extent:=Extent)).
Implicit Types (mat : material) (imgs : list image) (s : state).

Local Ltac tags :=
  unfold MESH_LAMBERT, MESH_PHONG, LINE_BASIC, SPRITE, WIREFRAME,
    MESH_LAMBERT_SMOOTH, MESH_LAMBERT_FLAT, CANVAS_IMAGE, MAP_IMAGE,
    LAYER_IMAGE, IMAGE_FILE in *.

(** An index call on the image manager: the list grows at its end, the
    descriptor sits at the index, and asking again later changes
    nothing. *)
Lemma image_index_spec (img : image) imgs :
  ∃ i k, _index img imgs = Some (i, imgs ++ k)
    ∧ (imgs ++ k) !! i = Some img
    ∧ ∀ k', _index img ((imgs ++ k) ++ k') = Some (i, (imgs ++ k) ++ k').
Proof.
  destruct (_index_total imgs img) as (i & k & Hi & Hl).
  exists i, k. split_and!; [done| |].
  - by apply list_index_Some in Hl as [? _].
  - intros k'. by apply (_index_again imgs).
Qed.

(** The image branch for a descriptor the manager builds. *)
Lemma image_entry_spec mat imgs :
  well_tagged mat →
  ∃ e k, image_entry mat imgs = Some (e, imgs ++ k)
    ∧ (∀ k', image_entry mat ((imgs ++ k) ++ k') = Some (e, (imgs ++ k) ++ k'))
    ∧ match material_image mat with
      | Some img => ∃ i tb, e = Some (i, tb) ∧ (imgs ++ k) !! i = Some img
      | None => e = None ∧ k = []
      end.
Proof.
  destruct mat as [type data o ds]. unfold well_tagged, image_entry, material_image.
  cbn [mat_type mat_data]. destruct data as [c|tb|w h e tb|ids w h e tb|p tb]; intros Hw.
  - exists None, []. rewrite app_nil_r.
    assert (type ≠ CANVAS_IMAGE ∧ type ≠ MAP_IMAGE ∧ type ≠ LAYER_IMAGE
            ∧ type ≠ IMAGE_FILE ∧ type ≠ SPRITE) as (?&?&?&?&?).
    { tags. lia. }
    rewrite !decide_False by tauto. split; [done|]. split; [|done].
    intros k'. by rewrite !decide_False by tauto.
  - subst type. rewrite decide_True by done.
    destruct (image_index_spec (ImageManager.CANVAS_IMAGE tb) imgs)
      as (i & k & Hi & Hl & Hk).
    exists (Some (i, tb)), k. unfold ImageManager.canvasImageIndex.
    rewrite Hi. split; [done|]. split; [|by eauto].
    intros k'. rewrite decide_True by done. by rewrite Hk.
  - subst type. rewrite decide_False by (tags; lia). rewrite decide_True by done.
    destruct (image_index_spec (ImageManager.MAP_IMAGE w h e tb) imgs)
      as (i & k & Hi & Hl & Hk).
    exists (Some (i, tb)), k. unfold ImageManager.mapImageIndex.
    rewrite Hi. split; [done|]. split; [|by eauto].
    intros k'. rewrite decide_False by (tags; lia).
    rewrite decide_True by done. by rewrite Hk.
  - subst type. rewrite !decide_False by (tags; lia). rewrite decide_True by done.
    destruct (image_index_spec (ImageManager.LAYER_IMAGE ids w h e tb) imgs)
      as (i & k & Hi & Hl & Hk).
    exists (Some (i, tb)), k. unfold ImageManager.layerImageIndex.
    rewrite Hi. split; [done|]. split; [|by eauto].
    intros k'. rewrite !decide_False by (tags; lia).
    rewrite decide_True by done. by rewrite Hk.
  - assert (type ≠ CANVAS_IMAGE ∧ type ≠ MAP_IMAGE ∧ type ≠ LAYER_IMAGE)
      as (?&?&?) by (tags; lia).
    rewrite !decide_False by done. rewrite decide_True by done.
    destruct (image_index_spec (ImageManager.IMAGE_FILE p) imgs)
      as (i & k & Hi & Hl & Hk).
    exists (Some (i, tb)), k. unfold ImageManager.imageIndex.
    rewrite Hi. split; [done|]. split; [|by eauto].
    intros k'. rewrite !decide_False by done.
    rewrite decide_True by done. by rewrite Hk.
Qed.











End MaterialWrite_facts.



(** ** The dialog's settings mapping *)

Section SettingsMapping_facts.
Import Dialog SettingsMapping.
Implicit Types (d s : list (text * json)) (k key : text) (v : json).

Lemma lookup_nil k : lookup k [] = None.
Proof. reflexivity. Qed.

Lemma lookup_cons k kv d :
  lookup k (kv :: d) = if decide (kv.1 = k) then Some kv.2 else lookup k d.
Proof.
  unfold lookup, get. cbn [list_find]. case_decide; [done|].
  by destruct (list_find _ d) as [[i x]|].
Qed.

(** Assignment and lookup. *)
Lemma lookup_dict_set k key v d :
  lookup k (dict_set key v d) = if decide (k = key) then Some v else lookup k d.
Proof.
  induction d as [|kv d IH]; cbn [dict_set].
  - rewrite lookup_cons, lookup_nil. simpl. repeat case_decide; congruence.
  - destruct (decide (kv.1 = key)) as [Hk|Hk].
    + rewrite !lookup_cons. simpl. repeat case_decide; congruence.
    + rewrite !lookup_cons, IH. repeat case_decide; congruence.
Qed.

Lemma lookup_dict_set_eq key v d : lookup key (dict_set key v d) = Some v.
Proof. rewrite lookup_dict_set. by case_decide. Qed.

Lemma lookup_dict_set_ne k key v d :
  k ≠ key → lookup k (dict_set key v d) = lookup k d.
Proof. intros. rewrite lookup_dict_set. by case_decide. Qed.

(** What [saveProperties] leaves under the parent's id. *)
Lemma saveProperties_layer_spec parentId layerId properties s :
  (∀ v, lookup parentId s = Some v → ∃ parent, v = JDict parent) →
  ∃ parent,
    default (JDict []) (lookup parentId s) = JDict parent ∧
    saveProperties (LayerItem parentId layerId) properties s
    = inr (dict_set parentId (JDict (dict_set layerId properties parent))
             (if decide (is_Some (lookup parentId s)) then s
              else dict_set parentId (JDict []) s)).
Proof.
  intros Hdict. unfold saveProperties. cbv zeta.
  destruct (lookup parentId s) as [v|] eqn:Hp.
  - destruct (Hdict v eq_refl) as [parent ->]. exists parent. split; [done|].
    rewrite decide_True by eauto. by rewrite Hp.
  - exists []. split; [done|].
    rewrite decide_False by (by intros [? ?]). by rewrite lookup_dict_set_eq.
Qed.

(** X14. [saveProperties] then the lookup that fills the page of a layer:
    the layer has the saved properties, and every other layer has what
    it had. *)
Theorem saveProperties_layer parentId layerId properties s :
  (∀ v, lookup parentId s = Some v → ∃ parent, v = JDict parent) →
  ∃ s', saveProperties (LayerItem parentId layerId) properties s = inr s' ∧
    layer_properties parentId layerId s' = inr (Some properties) ∧
    ∀ parentId' layerId', (parentId', layerId') ≠ (parentId, layerId) →
      layer_properties parentId' layerId' s' = layer_properties parentId' layerId' s.
Proof.
  intros Hdict.
  destruct (saveProperties_layer_spec parentId layerId properties s Hdict)
    as (parent & Hparent & ->).
  eexists. split; [done|]. unfold layer_properties. split.
  - rewrite lookup_dict_set_eq. simpl. by rewrite lookup_dict_set_eq.
  - intros p' l' Hne. destruct (decide (p' = parentId)) as [->|Hp].
    + rewrite lookup_dict_set_eq, Hparent. simpl.
      rewrite lookup_dict_set_ne by congruence. done.
    + rewrite lookup_dict_set_ne by done.
      case_decide; [done|]. by rewrite lookup_dict_set_ne.
Qed.

(** X15. [saveProperties] raises exactly when the parent's id holds a value
    that is not a dict; the error is a [TypeError]. *)
Theorem saveProperties_raises parentId layerId properties s e :
  saveProperties (LayerItem parentId layerId) properties s = inl e ↔
  e = TypeError ∧ ∃ v, lookup parentId s = Some v ∧ ∀ parent, v ≠ JDict parent.
Proof.
  unfold saveProperties. cbv zeta.
  destruct (lookup parentId s) as [v|] eqn:Hp.
  - rewrite decide_True by eauto. rewrite Hp. split.
    + destruct v; intros [= <-]; (split; [done|]); eexists; (split; [done|]); done.
    + intros (-> & v' & [= <-] & Hv). destruct v; try done. by destruct (Hv members).
  - rewrite decide_False by (by intros [? ?]). rewrite lookup_dict_set_eq.
    split; [done|]. by intros (_ & ? & ? & _).
Qed.

(** X16. A layer saved with its properties is shown checked in the tree as
    its [visible] property says. *)
Theorem saveProperties_visible parentId layerId properties s :
  (∀ v, lookup parentId s = Some v → ∃ parent, v = JDict parent) →
  ∃ s', saveProperties (LayerItem parentId layerId) (JDict properties) s = inr s' ∧
    isVisible parentId layerId s'
    = inr (truth (default (JBool false) (lookup (lit "visible") properties))).
Proof.
  intros Hdict.
  destruct (saveProperties_layer_spec parentId layerId (JDict properties) s Hdict)
    as (parent & Hparent & ->).
  eexists. split; [done|]. unfold isVisible.
  rewrite lookup_dict_set_eq. simpl. by rewrite lookup_dict_set_eq.
Qed.

Section clean.
Variable plugin_version : text.
Variables ITEM_OPTDEM ITEM_POINT ITEM_LINE ITEM_POLYGON : text.
Variable registered : text → bool.
Local Abbreviation known := (λ kv : text * json, registered kv.1 = true).

Lemma dict_del_app key (pre : list (text * json)) kv suf :
  Forall (λ x, x.1 ≠ key) pre → kv.1 = key →
  dict_del key (pre ++ kv :: suf) = pre ++ suf.
Proof.
  intros Hpre Hkv. induction Hpre as [|x pre Hx _ IH]; simpl.
  - by rewrite decide_True.
  - rewrite decide_False by done. by rewrite IH.
Qed.

Lemma remove_unregistered_app (pre suf : list (text * json)) :
  Forall known pre →
  foldl (λ parent layerId,
           if registered layerId then parent else dict_del layerId parent)
        (pre ++ suf) suf.*1
  = pre ++ filter known suf.
Proof.
  revert pre. induction suf as [|kv suf IH]; intros pre Hpre.
  - done.
  - cbn [fmap list_fmap foldl]. destruct (registered kv.1) eqn:Hr.
    + rewrite filter_cons_True by done.
      rewrite (cons_middle kv pre suf), (cons_middle kv pre (filter known suf)).
      rewrite !app_assoc. apply IH.
      apply Forall_app. split; [done|]. by constructor.
    + rewrite filter_cons_False by (simpl; congruence).
      rewrite dict_del_app; [by apply IH| |done].
      eapply Forall_impl; [exact Hpre|]. simpl. intros x Hx Heq.
      rewrite Heq in Hx. congruence.
Qed.

(** The inner loop leaves the layers that the registry knows, in their
    order. *)
Lemma remove_unregistered_filter (parent : list (text * json)) :
  remove_unregistered registered parent = filter known parent.
Proof. apply (remove_unregistered_app [] parent). constructor. Qed.

Lemma registered_only_idemp v :
  registered_only registered (registered_only registered v)
  = registered_only registered v.
Proof.
  destruct v; try done. simpl. f_equal.
  induction members as [|kv d IH]; [done|].
  destruct (registered kv.1) eqn:Hr.
  - rewrite (filter_cons_True known kv d) by done.
    rewrite filter_cons_True by done. by rewrite IH.
  - by rewrite (filter_cons_False known kv d) by (simpl; congruence).
Qed.

Lemma clean_items_spec itemIds s :
  (∀ itemId v, itemId ∈ itemIds → lookup itemId s = Some v → ∃ parent, v = JDict parent) →
  ∃ s', clean_items registered itemIds s = inr s' ∧
    ∀ k, lookup k s'
         = if decide (k ∈ itemIds) then registered_only registered <$> lookup k s
           else lookup k s.
Proof.
  revert s. induction itemIds as [|itemId rest IH]; intros s Hdict.
  - exists s. split; [done|]. intros k. rewrite decide_False; [done|]. by intros ?%elem_of_nil.
  - cbn [clean_items]. unfold clean_item.
    destruct (lookup itemId s) as [v|] eqn:Hitem.
    + destruct (Hdict itemId v) as [parent ->]; [left|done|].
      rewrite remove_unregistered_filter.
      destruct (IH (dict_set itemId (JDict (filter known parent)) s)) as (s' & -> & Hs').
      { intros i v Hi. rewrite lookup_dict_set. case_decide; [intros [= <-]; eauto|].
        apply Hdict. by right. }
      exists s'. split; [done|]. intros k. rewrite Hs', lookup_dict_set.
      destruct (decide (k = itemId)) as [->|Hk].
      * rewrite Hitem, (decide_True (P:=itemId ∈ itemId :: rest)) by left.
        case_decide; [|done]. simpl. f_equal.
        apply (registered_only_idemp (JDict parent)).
      * destruct (decide (k ∈ rest)) as [Hin|Hin].
        -- by rewrite decide_True by (by right).
        -- rewrite decide_False; [done|]. by intros [?|?]%elem_of_cons.
    + destruct (IH s) as (s' & -> & Hs').
      { intros i v Hi. apply Hdict. by right. }
      exists s'. split; [done|]. intros k. rewrite Hs'.
      destruct (decide (k = itemId)) as [->|Hk].
      * rewrite Hitem, (decide_True (P:=itemId ∈ itemId :: rest)) by left.
        by case_decide.
      * destruct (decide (k ∈ rest)) as [Hin|Hin].
        -- by rewrite decide_True by (by right).
        -- rewrite decide_False; [done|]. by intros [?|?]%elem_of_cons.
Qed.

(** X17. [settings(clean=True)] against [settings(clean=False)]: each of the
    four categories of layers loses the layers that the registry does not
    know, and nothing else changes. *)
Theorem settings_clean current template filename s s0 :
  settings plugin_version ITEM_OPTDEM ITEM_POINT ITEM_LINE ITEM_POLYGON registered
    current template filename false s = inr s0 →
  (∀ itemId v, itemId ∈ layer_items ITEM_OPTDEM ITEM_POINT ITEM_LINE ITEM_POLYGON →
     lookup itemId s0 = Some v → ∃ parent, v = JDict parent) →
  ∃ s', settings plugin_version ITEM_OPTDEM ITEM_POINT ITEM_LINE ITEM_POLYGON registered
          current template filename true s = inr s' ∧
    ∀ k, lookup k s'
         = if decide (k ∈ layer_items ITEM_OPTDEM ITEM_POINT ITEM_LINE ITEM_POLYGON)
           then registered_only registered <$> lookup k s0
           else lookup k s0.
Proof.
  unfold settings. intros Hs0 Hdict.
  destruct (match current with Some (item, properties) => _ | None => _ end)
    as [e|s1]; [done|].
  cbv zeta in *. injection Hs0 as <-. by apply clean_items_spec.
Qed.
End clean.
End SettingsMapping_facts.

Lemma saveProperties_layer_witness :
  ∃ s', SettingsMapping.saveProperties
          (SettingsMapping.LayerItem (Dialog.lit "POINT") (Dialog.lit "roads"))
          (Dialog.JDict []) SettingsMapping.sample_settings = inr s' ∧
    SettingsMapping.layer_properties (Dialog.lit "POINT") (Dialog.lit "roads") s'
    = inr (Some (Dialog.JDict [])) ∧
    ∀ parentId' layerId',
      (parentId', layerId') ≠ (Dialog.lit "POINT", Dialog.lit "roads") →
      SettingsMapping.layer_properties parentId' layerId' s'
      = SettingsMapping.layer_properties parentId' layerId' SettingsMapping.sample_settings.
Proof.
  apply (saveProperties_layer (Dialog.lit "POINT") (Dialog.lit "roads") (Dialog.JDict [])
           SettingsMapping.sample_settings).
  intros v. vm_compute. intros [= <-]. eexists. reflexivity.
Defined.

Lemma saveProperties_visible_witness :
  ∃ s', SettingsMapping.saveProperties
          (SettingsMapping.LayerItem (Dialog.lit "LINE") (Dialog.lit "rivers"))
          (Dialog.JDict [(Dialog.lit "visible", Dialog.JBool true)])
          SettingsMapping.sample_settings = inr s' ∧
    SettingsMapping.isVisible (Dialog.lit "LINE") (Dialog.lit "rivers") s'
    = inr (SettingsMapping.truth
             (default (Dialog.JBool false)
                (SettingsMapping.lookup (Dialog.lit "visible")
                   [(Dialog.lit "visible", Dialog.JBool true)]))).
Proof.
  apply (saveProperties_visible (Dialog.lit "LINE") (Dialog.lit "rivers")
           [(Dialog.lit "visible", Dialog.JBool true)] SettingsMapping.sample_settings).
  intros v. vm_compute. intros [=].
Defined.

Lemma settings_clean_witness :
  ∃ s', SettingsMapping.sample_settings_of true = inr s' ∧
    ∀ k, SettingsMapping.lookup k s'
         = if decide (k ∈ SettingsMapping.layer_items (Dialog.lit "OPTDEM")
                            (Dialog.lit "POINT") (Dialog.lit "LINE") (Dialog.lit "POLYGON"))
           then SettingsMapping.registered_only SettingsMapping.sample_registered
                  <$> SettingsMapping.lookup k SettingsMapping.sample_saved
           else SettingsMapping.lookup k SettingsMapping.sample_saved.
Proof.
  apply (settings_clean (Dialog.lit "1.4") (Dialog.lit "OPTDEM") (Dialog.lit "POINT")
           (Dialog.lit "LINE") (Dialog.lit "POLYGON") SettingsMapping.sample_registered
           None (Dialog.lit "3DViewer.html") (Dialog.lit "index.html")
           SettingsMapping.sample_settings SettingsMapping.sample_saved eq_refl).
  intros itemId v Hin. unfold SettingsMapping.layer_items in Hin.
  repeat (apply elem_of_cons in Hin as [->|Hin]);
    [vm_compute; intros [= <-] || intros [=]; eexists; reflexivity ..|].
  by apply elem_of_nil in Hin.
Defined.

(** ** ImageManager: the images and their files *)

Section ImageWrite_facts.
Import DataManager ImageWrite.
Context {Extent Rect Angle Color Layer Image : Type}.
Context `{!ImageManager.Host Extent Rect Angle Color Layer Image}.
Variable baseExtent : Extent.
Variable isfile : string → bool.
Variable load : string → Image.
Variable gray_pixel : Image.
Local Abbreviation image := (ImageWrite.image baseExtent isfile load gray_pixel).
Local Abbreviation write := (ImageWrite.write baseExtent isfile load gray_pixel).
Local Abbreviation writeAll_from := (ImageWrite.writeAll_from baseExtent isfile load gray_pixel).
Local Abbreviation writeAll := (ImageWrite.writeAll baseExtent isfile load gray_pixel).
Local Abbreviation resolved s :=
  (ImageManager.MapSettings (ImageManager.outputSize s) (ImageManager.extent s)
     (ImageManager.rotation s)
     (ImageManager.getLayersByLayerIds (ImageManager.layer_id <$> ImageManager.layers s))
     (ImageManager.backgroundColor s)).

Lemma render_spec width height ext transp_background layerids
    (w : world (Image:=Image)) :
  ∃ img, render (ImageManager.renderedImage width height ext transp_background layerids) w
         = (img, World (resolved (mapSettings w)) (logged w) (saved w)).
Proof.
  unfold render.
  pose proof (renderedImage_settings width height ext transp_background layerids
                (mapSettings w)) as Hs.
  destruct (ImageManager.renderedImage _ _ _ _ _ _) as [img s]. simpl in Hs.
  subst s. by exists img.
Qed.

(** What [image] does to the world, for an index of the list. *)
Lemma image_spec i l x (w : world (Image:=Image)) :
  l !! i = Some x →
  ∃ img s, image i l w
           = Some (img, World s (logged w ++ option_list (missing_file isfile x)) (saved w))
           ∧ (s = mapSettings w ∨ s = resolved (mapSettings w)).
Proof.
  intros Hx. unfold ImageWrite.image. rewrite Hx. destruct x as [path|tb|wd h e tb|ids wd h e tb]; simpl.
  - destruct (isfile path); simpl.
    + exists (load path), (mapSettings w). rewrite app_nil_r. split; [by destruct w|by left].
    + exists gray_pixel, (mapSettings w). split; [done|by left].
  - unfold mapCanvasImage.
    destruct (render_spec (ImageManager.outputSize (mapSettings w)).1
                (ImageManager.outputSize (mapSettings w)).2 baseExtent tb None w)
      as [img Himg].
    exists img, (resolved (mapSettings w)). rewrite app_nil_r. split; [|by right].
    f_equal. exact Himg.
  - destruct (render_spec wd h e tb None w) as [img ->].
    exists img, (resolved (mapSettings w)). rewrite app_nil_r. split; [done|by right].
  - destruct (render_spec wd h e tb (Some ids) w) as [img ->].
    exists img, (resolved (mapSettings w)). rewrite app_nil_r. split; [done|by right].
Qed.

Lemma append_length (a b : string) :
  String.length (a +:+ b) = String.length a + String.length b.
Proof. induction a as [|c a IH]; [done|]. rewrite append_cons. simpl. by rewrite IH. Qed.

Lemma append_inj_r (a b t : string) : a +:+ t = b +:+ t → a = b.
Proof.
  revert b. induction a as [|c a IH]; intros [|c' b] Heq.
  - done.
  - apply (f_equal String.length) in Heq. rewrite !append_length in Heq.
    simpl in Heq. lia.
  - apply (f_equal String.length) in Heq. rewrite !append_length in Heq.
    simpl in Heq. lia.
  - rewrite !append_cons in Heq. injection Heq as -> Heq. f_equal. by apply IH.
Qed.

(** Two indices never share a file name. *)
Lemma file_name_inj pathRoot : Inj (=) (=) (file_name pathRoot).
Proof.
  intros i j Heq. unfold file_name in Heq.
  apply String.app_inj, String.app_inj, append_inj_r in Heq.
  by apply (inj pretty) in Heq.
Qed.

Lemma omap_cons_app {A B} (f : A → option B) x l :
  omap f (x :: l) = option_list (f x) ++ omap f l.
Proof. simpl. by destruct (f x). Qed.

Lemma writeAll_from_spec pathRoot n i l (w : world (Image:=Image)) :
  i + n = length l →
  ∃ w', writeAll_from pathRoot i n l w = Some w' ∧
    (saved w').*1 = (saved w).*1 ++ (file_name pathRoot <$> seq i n) ∧
    logged w' = logged w ++ omap (missing_file isfile) (take n (drop i l)) ∧
    (resolved (mapSettings w) = mapSettings w → mapSettings w' = mapSettings w).
Proof.
  revert i w. induction n as [|n IH]; intros i w Hlen.
  - exists w. simpl. by rewrite !app_nil_r.
  - destruct (lookup_lt_is_Some_2 l i) as [x Hx]; [lia|].
    destruct (image_spec i l x w Hx) as (img & s & Himg & Hs).
    cbn [ImageWrite.writeAll_from]. unfold ImageWrite.write. rewrite Himg.
    destruct (IH (S i) (save (file_name pathRoot i) img
                          (World s (logged w ++ option_list (missing_file isfile x))
                             (saved w))))
      as (w' & -> & Hsaved & Hlogged & Hsettings); [lia|].
    exists w'. split; [done|]. simpl in Hsaved, Hlogged, Hsettings. split_and!.
    + rewrite Hsaved, fmap_app, <- app_assoc. done.
    + rewrite Hlogged, <- app_assoc. f_equal.
      rewrite (drop_S l x i Hx). cbn [take]. by rewrite omap_cons_app.
    + intros Hres. destruct Hs as [->| ->].
      * by apply Hsettings.
      * rewrite Hres in Hsettings. rewrite Hsettings; [done|]. exact Hres.
Qed.

(** X18. [writeAll] writes one file for each image of the list, in the order
    of the list, no two under the same name; it never fails on an index,
    and it logs one message for each image file that is not there. *)
Theorem writeAll_files pathRoot l (w : world (Image:=Image)) :
  ∃ w', writeAll pathRoot l w = Some w' ∧
    (saved w').*1 = (saved w).*1 ++ (file_name pathRoot <$> seq 0 (count l)) ∧
    NoDup (file_name pathRoot <$> seq 0 (count l)) ∧
    logged w' = logged w ++ omap (missing_file isfile) l.
Proof.
  destruct (writeAll_from_spec pathRoot (count l) 0 l w)
    as (w' & Hw & Hsaved & Hlogged & _); [done|].
  exists w'. split; [done|]. split; [done|]. split.
  - apply (NoDup_fmap_2 (file_name pathRoot) (Inj0:=file_name_inj pathRoot)), NoDup_seq.
  - rewrite Hlogged. unfold count. by rewrite drop_0, firstn_all.
Qed.

(** X19. [writeAll] leaves the shared map settings as it found them, when
    [getLayersByLayerIds] resolves the ids of the layers to the layers. *)
Theorem writeAll_restores pathRoot l (w : world (Image:=Image)) :
  ImageManager.getLayersByLayerIds (ImageManager.layer_id <$> ImageManager.layers (mapSettings w))
  = ImageManager.layers (mapSettings w) →
  ∃ w', writeAll pathRoot l w = Some w' ∧ mapSettings w' = mapSettings w.
Proof.
  intros Hl.
  destruct (writeAll_from_spec pathRoot (count l) 0 l w)
    as (w' & Hw & _ & _ & Hsettings); [done|].
  exists w'. split; [done|]. apply Hsettings. rewrite Hl. by destruct (mapSettings w).
Qed.
End ImageWrite_facts.

Lemma writeAll_restores_witness :
  ∃ w', ImageWrite.sample_writeAll = Some w' ∧
    ImageWrite.mapSettings w' = DemoHost.canvas_settings.
Proof.
  apply (writeAll_restores ([0; 0; 400; 300]%Z, 0%Z) (λ _, false)
           (λ _, (false, DemoHost.canvas_settings, (0, 0)%Z))
           (false, DemoHost.canvas_settings, (1, 1)%Z)
           "scene" ImageWrite.sample_images ImageWrite.sample_world).
  reflexivity.
Defined.

(** ** MaterialManager.buildAll: the dicts and the image files *)

Section MaterialBuild_facts.
Import DataManager MaterialManager MaterialBuild.
Context {Extent Rect Angle Colour Layer Image : Type} `{EqDecision Extent}.
Context `{!ImageManager.Host Extent Rect Angle Colour Layer Image}.
Variable baseExtent : Extent.
Variable isfile : string → bool.
Variable load : string → Image.
Variable gray_pixel : Image.
Variable int16 : string → option Z.
Local Abbreviation material := (MaterialManager.material Extent).
Local Abbreviation image := (ImageManager.image Extent).
Local Abbreviation world := (ImageWrite.world (Rect:=Rect) (Angle:=Angle) (Color:=Colour)
                               (Layer:=Layer) (Image:=Image)).
Local Abbreviation value := (MaterialBuild.value (Image:=Image)).
Local Abbreviation build := (MaterialBuild.build baseExtent isfile load gray_pixel int16).
Local Abbreviation buildAll_from :=
  (MaterialBuild.buildAll_from baseExtent isfile load gray_pixel int16).
Local Abbreviation buildAll := (MaterialBuild.buildAll baseExtent isfile load gray_pixel int16).
Implicit Types (mat : material) (imgs : list image) (w : world).

Local Ltac tags :=
  unfold MESH_LAMBERT, MESH_PHONG, LINE_BASIC, SPRITE, WIREFRAME,
    MESH_LAMBERT_SMOOTH, MESH_LAMBERT_FLAT, CANVAS_IMAGE, MAP_IMAGE,
    LAYER_IMAGE, IMAGE_FILE in *.

Lemma elem_of_set_if (c : bool) key (v : value) m x :
  x ∈ set_if c key v m → x ∈ m ∨ x = (key, v).
Proof.
  unfold set_if. destruct c; [|by left].
  intros [?|?%list_elem_of_singleton]%elem_of_app; auto.
Qed.

Lemma elem_of_set_if_2 (c : bool) key (v : value) m x :
  x ∈ m → x ∈ set_if c key v m.
Proof. unfold set_if. destruct c; [|done]. intros. apply elem_of_app. by left. Qed.

(** Whether a descriptor the manager builds is an image material. *)
Lemma is_image_material_spec mat :
  MaterialWrite.well_tagged mat →
  is_image_material mat = bool_decide (is_Some (MaterialWrite.material_image mat)).
Proof.
  destruct mat as [type data o ds].
  unfold MaterialWrite.well_tagged, is_image_material, MaterialWrite.material_image.
  cbn [mat_type mat_data]. intros Hw.
  destruct data; [rewrite (bool_decide_eq_false_2 (is_Some None)) by (by intros [? ?])
                 |rewrite (bool_decide_eq_true_2 (is_Some (Some _))) by eauto ..].
  - apply bool_decide_eq_false_2. rewrite !elem_of_cons, elem_of_nil. tags. lia.
  - apply bool_decide_eq_true_2. rewrite !elem_of_cons. tauto.
  - apply bool_decide_eq_true_2. rewrite !elem_of_cons. tauto.
  - apply bool_decide_eq_true_2. rewrite !elem_of_cons. tauto.
  - apply bool_decide_eq_true_2. rewrite !elem_of_cons. tauto.
Qed.

(** One call of [build] with a file path, as [buildAll] makes it. *)
Lemma build_spec i mat mats imgs w filepath url :
  mats !! i = Some mat → MaterialWrite.well_tagged mat → colour_parses int16 mat →
  ∃ m imgs' w', build i (Some filepath) url mats imgs w = Some (m, imgs', w') ∧
    (ImageWrite.saved w').*1
    = (ImageWrite.saved w).*1 ++ (if is_image_material mat then [filepath] else []) ∧
    (∀ v, ("image", v) ∈ m → v = VUrl url) ∧
    (is_image_material mat = true → ("image", VUrl url) ∈ m).
Proof.
  intros Hmat Hw Hc. unfold MaterialBuild.build. rewrite Hmat. cbn [mbind option_bind].
  rewrite (is_image_material_spec mat Hw).
  destruct (image_entry_spec mat imgs Hw) as (e & k & He & _ & Himg).
  destruct (MaterialWrite.material_image mat) as [img|] eqn:Hm.
  - rewrite (bool_decide_eq_true_2 (is_Some (Some img))) by (by eexists).
    destruct Himg as (j & tb & -> & Hj). rewrite He. cbn [mbind option_bind].
    destruct (image_spec baseExtent isfile load gray_pixel j (imgs ++ k) img w Hj)
      as (im & s & Him & _).
    unfold ImageWrite.write. rewrite Him. cbn [mbind option_bind].
    eexists _, _, _. split; [reflexivity|]. split_and!.
    + simpl. by rewrite fmap_app.
    + intros v Hv.
      repeat (apply elem_of_set_if in Hv as [Hv|Hv]; [|by inversion Hv]).
      apply elem_of_app in Hv as [Hv|Hv]; apply list_elem_of_singleton in Hv.
      * by inversion Hv.
      * by injection Hv as ->.
    + intros _. do 5 apply elem_of_set_if_2. apply elem_of_app. right.
      by apply list_elem_of_singleton.
  - rewrite (bool_decide_eq_false_2 (is_Some None)) by (by intros [? ?]).
    unfold colour_parses in Hc. unfold MaterialWrite.material_image in Hm.
    destruct (mat_data mat) as [c| | | |]; try done.
    destruct Hc as [n ->]. cbn [mbind option_bind].
    eexists _, _, _. split; [reflexivity|]. split_and!.
    + by rewrite app_nil_r.
    + intros v Hv.
      repeat (apply elem_of_set_if in Hv as [Hv|Hv]; [|by inversion Hv]).
      apply elem_of_app in Hv as [Hv|Hv]; apply list_elem_of_singleton in Hv;
        by inversion Hv.
    + done.
Qed.

Lemma buildAll_from_spec pathRoot urlRoot mats n i mList imgs w :
  Forall MaterialWrite.well_tagged mats → Forall (colour_parses int16) mats →
  i + n = length mats →
  ∃ new imgs' w',
    buildAll_from pathRoot urlRoot i n mats mList imgs w = Some (mList ++ new, imgs', w') ∧
    length new = n ∧
    (ImageWrite.saved w').*1
    = (ImageWrite.saved w).*1 ++ image_files (format_root pathRoot) i (drop i mats) ∧
    ∀ j m mat, new !! j = Some m → mats !! (i + j) = Some mat →
      (∀ v, ("image", v) ∈ m
            → v = VUrl (Some (ImageWrite.file_name (format_root urlRoot) (i + j)))) ∧
      (is_image_material mat = true
       → ("image", VUrl (Some (ImageWrite.file_name (format_root urlRoot) (i + j)))) ∈ m).
Proof.
  intros Hw Hc. revert i mList imgs w. induction n as [|n IH]; intros i mList imgs w Hlen.
  - exists [], imgs, w. rewrite app_nil_r. split; [done|]. split; [done|]. split.
    + rewrite drop_ge by lia. simpl. by rewrite app_nil_r.
    + by intros [|j] m mat.
  - destruct (lookup_lt_is_Some_2 mats i) as [mat Hmat]; [lia|].
    assert (MaterialWrite.well_tagged mat ∧ colour_parses int16 mat) as [Hwm Hcm].
    { split; [eapply Forall_lookup_1 in Hw|eapply Forall_lookup_1 in Hc]; eauto. }
    destruct (build_spec i mat mats imgs w
                (ImageWrite.file_name (format_root pathRoot) i)
                (Some (ImageWrite.file_name (format_root urlRoot) i)) Hmat Hwm Hcm)
      as (m & imgs1 & w1 & Hb & Hsaved & Hurl & Himage).
    cbn [MaterialBuild.buildAll_from]. cbv zeta. rewrite Hb. cbn [mbind option_bind].
    destruct (IH (S i) (mList ++ [m]) imgs1 w1) as (new & imgs' & w' & -> & Hn & Hs & Hj);
      [lia|].
    exists (m :: new), imgs', w'. split; [by rewrite <- app_assoc|].
    split; [simpl; lia|]. split.
    + rewrite Hs, Hsaved, (drop_S mats mat i Hmat). cbn [image_files].
      by rewrite <- !app_assoc.
    + intros [|j] m' mat' Hm' Hmat'.
      * injection Hm' as <-. rewrite Nat.add_0_r in Hmat' |- *.
        rewrite Hmat in Hmat'. injection Hmat' as <-. done.
      * replace (i + S j) with (S i + j) in * by lia. by apply Hj.
Qed.

(** X20. [buildAll] always gives [build] a file path, so it never puts an
    image object into a dict: for each image material it writes an image
    file named by the material's index, under ["None"] when no path root
    is given, and the dict refers to it by the url of the same index. *)
Theorem buildAll_files pathRoot urlRoot mats imgs w :
  Forall MaterialWrite.well_tagged mats → Forall (colour_parses int16) mats →
  ∃ mList imgs' w', buildAll pathRoot urlRoot mats imgs w = Some (mList, imgs', w') ∧
    length mList = length mats ∧
    (ImageWrite.saved w').*1
    = (ImageWrite.saved w).*1 ++ image_files (format_root pathRoot) 0 mats ∧
    ∀ i m mat, mList !! i = Some m → mats !! i = Some mat →
      (∀ v, ("image", v) ∈ m
            → v = VUrl (Some (ImageWrite.file_name (format_root urlRoot) i))) ∧
      (is_image_material mat = true
       → ("image", VUrl (Some (ImageWrite.file_name (format_root urlRoot) i))) ∈ m).
Proof.
  intros Hw Hc.
  destruct (buildAll_from_spec pathRoot urlRoot mats (length mats) 0 [] imgs w Hw Hc)
    as (mList & imgs' & w' & Hb & Hn & Hs & Hj); [done|].
  exists mList, imgs', w'. split; [exact Hb|]. split; [done|]. split; [done|].
  intros i m mat Hm Hmat. by apply (Hj i m mat).
Qed.
End MaterialBuild_facts.

Lemma buildAll_files_witness :
  ∃ mList imgs' w', MaterialBuild.sample_buildAll = Some (mList, imgs', w') ∧
    length mList = length MaterialBuild.sample_materials ∧
    (ImageWrite.saved w').*1
    = (ImageWrite.saved ImageWrite.sample_world).*1
      ++ MaterialBuild.image_files (MaterialBuild.format_root None) 0
           MaterialBuild.sample_materials ∧
    ∀ i m mat, mList !! i = Some m → MaterialBuild.sample_materials !! i = Some mat →
      (∀ v, ("image", v) ∈ m
            → v = MaterialBuild.VUrl
                    (Some (ImageWrite.file_name (MaterialBuild.format_root None) i))) ∧
      (MaterialBuild.is_image_material mat = true
       → ("image", MaterialBuild.VUrl
                     (Some (ImageWrite.file_name (MaterialBuild.format_root None) i))) ∈ m).
Proof.
  apply (buildAll_files ([0; 0; 400; 300]%Z, 0%Z) (λ _, false)
           (λ _, (false, DemoHost.canvas_settings, (0, 0)%Z))
           (false, DemoHost.canvas_settings, (1, 1)%Z) MaterialBuild.sample_int16
           None None MaterialBuild.sample_materials [] ImageWrite.sample_world).
  - repeat apply Forall_cons_2; [vm_compute; auto 6 ..|apply Forall_nil_2].
  - repeat apply Forall_cons_2; [vm_compute; eauto ..|apply Forall_nil_2].
Defined.

(** The files of such a run: the sprite's and the canvas image's, under
    the name of [None]. *)
Example buildAll_sample_files :
  (λ r, (ImageWrite.saved r.2).*1) <$> MaterialBuild.sample_buildAll
  = Some ["None_IMG1.png"; "None_IMG2.png"].
Proof. vm_compute. reflexivity. Qed.

(** ** The output file name chosen by browsing *)

Section BrowseFilename_facts.
Import Dialog BrowseFilename.
Variable lower : text → text.
Hypothesis lower_html : lower (lit ".html") = lit ".html".

Lemma last_chars_app (s e : text) : last_chars (length e) (s ++ e) = e.
Proof.
  unfold last_chars. rewrite length_app.
  replace (length s + length e - length e) with (length s) by lia.
  by rewrite drop_app_length.
Qed.

Lemma with_extension_has (filename : text) :
  has_extension lower (with_extension lower filename) = true.
Proof.
  unfold with_extension. destruct (has_extension lower filename) eqn:Hf; [done|].
  pose proof (last_chars_app filename (lit ".html")) as H5.
  change (length (lit ".html")) with 5 in H5.
  unfold has_extension. rewrite H5, lower_html. by rewrite bool_decide_eq_true_2.
Qed.

(** X21. The file name that [browseClicked] puts into the field ends in
    [.html] or [.htm], in upper or lower case, and choosing that name
    again changes nothing. *)
Theorem browseClicked_extension (chosen current : text) :
  chosen ≠ [] →
  has_extension lower (browseClicked lower chosen current) = true ∧
  browseClicked lower (browseClicked lower chosen current) current
  = browseClicked lower chosen current.
Proof.
  intros Hc. unfold browseClicked. destruct chosen as [|c chosen]; [done|].
  pose proof (with_extension_has (c :: chosen)) as Hh. split; [done|].
  destruct (with_extension lower (c :: chosen)) as [|c' r] eqn:Hr.
  - unfold with_extension in Hr. destruct (has_extension lower (c :: chosen)); done.
  - unfold with_extension at 1. by rewrite Hh.
Qed.
End BrowseFilename_facts.

Lemma browseClicked_extension_witness :
  BrowseFilename.has_extension BrowseFilename.ascii_lower
    (BrowseFilename.browseClicked BrowseFilename.ascii_lower
       (Dialog.lit "/home/user/scene") (Dialog.lit "")) = true ∧
  BrowseFilename.browseClicked BrowseFilename.ascii_lower
    (BrowseFilename.browseClicked BrowseFilename.ascii_lower
       (Dialog.lit "/home/user/scene") (Dialog.lit "")) (Dialog.lit "")
  = BrowseFilename.browseClicked BrowseFilename.ascii_lower
      (Dialog.lit "/home/user/scene") (Dialog.lit "").
Proof.
  apply (browseClicked_extension BrowseFilename.ascii_lower eq_refl
           (Dialog.lit "/home/user/scene") (Dialog.lit "")).
  vm_compute. discriminate.
Defined.
